(** * Flight Load Dashboard (Enplanement.py): aggregation queries

    A shallow embedding of the queries that [Enplanement.py] runs over the
    loaded flight table, and the properties of them that the specification
    states.

    The script is a sequence of pandas calls.  [Module Pandas] embeds the
    fragment of the pandas API that the script calls, with the semantics
    pandas documents for the arguments the script passes (defaults
    included):
    - the table is the clean table the script loads: every cell is
      present, every departure date parses;
    - an integer column read by [read_csv] is [int64]: a [Z] that the
      reductions wrap around at 64 bits;
    - [mean], [std] and [corr] are computed in [float64]: the model keeps
      the not-a-number value and takes the finite values as exact reals,
      so rounding errors are outside the model; the conversion of an
      int64 column to float64, which rounds beyond 53 bits, is modelled on
      the integers;
    - a [Series] is the list of its (label, value) pairs, in order;
    - a [DataFrame] is the list of its rows, in order;
    - the sorting algorithm behind [sort_values] is a parameter.

    [Module Dashboard] embeds the four pages of the script, one module per
    page, each definition named after the variable of the script it
    embeds; the run of the Compare Segments page, with the exception that
    its second select box raises on a table of a single segment, is
    [CompareSegments.run].  [Module Samples] holds small tables, [Module Spec] the
    notions of the specification that the properties are stated with. *)

From Stdlib Require Import String Ascii.
From Stdlib Require Import ZArith List Bool Arith Lia.
From Stdlib Require Import Permutation Sorted.
From Stdlib Require Import Reals Lra.
Import ListNotations.

Module Pandas.

(** ** Labels

    Group keys and index labels: they are compared for equality (grouping,
    alignment) and ordered (sorted group keys, sorted index union). *)

Class Label (K : Type) : Type := {
  eqb : K -> K -> bool;
  leb : K -> K -> bool;
  eqb_spec : forall a b : K, reflect (a = b) (eqb a b)
}.

#[export] Instance Label_Z : Label Z :=
  {| eqb := Z.eqb; leb := Z.leb; eqb_spec := Z.eqb_spec |}.

#[export] Instance Label_string : Label string :=
  {| eqb := String.eqb; leb := String.leb; eqb_spec := String.eqb_spec |}.

(** ** int64 columns *)

Definition int64_wrap (z : Z) : Z := (z + 2 ^ 63) mod 2 ^ 64 - 2 ^ 63.

Definition int64_add (a b : Z) : Z := int64_wrap (a + b).

(** [Series.sum()] of an int64 column: the values are added up in int64,
    from 0. *)
Definition sum (values : list Z) : Z := fold_left int64_add values 0%Z.

(** ** float64 values *)

Inductive float64 : Type :=
| NaN : float64
| Fin : R -> float64.

Definition float_of_int (z : Z) : float64 := Fin (IZR z).

Definition fadd (a b : float64) : float64 :=
  match a, b with
  | Fin x, Fin y => Fin (x + y)
  | _, _ => NaN
  end.

Definition fmul (a b : float64) : float64 :=
  match a, b with
  | Fin x, Fin y => Fin (x * y)
  | _, _ => NaN
  end.

Definition fsqrt (a : float64) : float64 :=
  match a with
  | Fin x => if Rlt_dec x 0 then NaN else Fin (sqrt x)
  | NaN => NaN
  end.

(** [a > b]: false as soon as one side is not a number. *)
Definition fgt (a b : float64) : bool :=
  match a, b with
  | Fin x, Fin y => if Rlt_dec y x then true else false
  | _, _ => false
  end.

(** The float64 sum of a column, [values.sum(dtype=float64)]. *)
Definition fsum (values : list R) : R := fold_left Rplus values 0%R.

(** [Series.mean()]: the float64 sum over the count; not a number for an
    empty column. *)
Definition mean (values : list Z) : float64 :=
  match values with
  | [] => NaN
  | _ => Fin (fsum (map IZR values) / INR (length values))
  end.

(** [Series.var(ddof)]: [count] values, [d = count - ddof]; when
    [count <= ddof] both are not a number and so is the result; otherwise
    the squared distances to the average, summed and divided by [d]. *)
Definition var (ddof : nat) (values : list Z) : float64 :=
  let count := length values in
  if (count <=? ddof)%nat then NaN
  else
    let avg := (fsum (map IZR values) / INR count)%R in
    let sqr := map (fun x => ((avg - IZR x) ^ 2)%R) values in
    Fin (fsum sqr / INR (count - ddof)).

(** [Series.std(ddof)] is the square root of [var]; [ddof] defaults to 1. *)
Definition std_ddof (ddof : nat) (values : list Z) : float64 :=
  fsqrt (var ddof values).

Definition std (values : list Z) : float64 := std_ddof 1 values.

(** ** Selecting rows *)

(** [df[mask]]: the rows at which the boolean mask is true, in order.  The
    mask has one entry per row (pandas refuses a mask of another length;
    the script builds every mask from the table it selects from). *)
Fixpoint boolean_index {R : Type} (df : list R) (mask : list bool) : list R :=
  match df, mask with
  | r :: df', b :: mask' =>
      if b then r :: boolean_index df' mask' else boolean_index df' mask'
  | _, _ => []
  end.

(** [Series.unique()]: the distinct values, in order of first appearance. *)
Fixpoint unique {K : Type} `{Label K} (values : list K) : list K :=
  match values with
  | [] => []
  | x :: rest => x :: filter (fun y => negb (eqb y x)) (unique rest)
  end.

Fixpoint insert_sorted {K : Type} `{Label K} (k : K) (l : list K) : list K :=
  match l with
  | [] => [k]
  | h :: t => if leb k h then k :: l else h :: insert_sorted k t
  end.

(** Python's [sorted(values)]. *)
Definition sorted {K : Type} `{Label K} (values : list K) : list K :=
  fold_right insert_sorted [] values.

(** ** Series and group-by *)

Definition Series (K : Type) : Type := list (K * Z).

Definition index {K : Type} (s : Series K) : list K := map fst s.

(** The value of a Series at a label; [None] is the missing value that
    alignment puts where the label is absent. *)
Fixpoint lookup {K : Type} `{Label K} (s : Series K) (k : K) : option Z :=
  match s with
  | [] => None
  | (k', v) :: s' => if eqb k' k then Some v else lookup s' k
  end.

(** The group keys of [df.groupby(key)]: the distinct keys, sorted
    ([sort=True] is the default). *)
Definition group_keys {R K : Type} `{Label K} (key : R -> K) (df : list R)
  : list K :=
  sorted (unique (map key df)).

(** The rows of one group. *)
Definition get_group {R K : Type} `{Label K} (key : R -> K) (df : list R)
    (k : K) : list R :=
  filter (fun r => eqb (key r) k) df.

(** [df.groupby(key)[col].sum()]: one entry per group key, in key order,
    with the int64 sum of the column over the rows of the group. *)
Definition groupby_sum {R K : Type} `{Label K} (key : R -> K) (col : R -> Z)
    (df : list R) : Series K :=
  map (fun k => (k, sum (map col (get_group key df k)))) (group_keys key df).

(** [df.groupby(key)[cols].sum()] for a list of columns: one row of sums
    per group key. *)
Definition groupby_sum_columns {R K C : Type} `{Label K} (key : R -> K)
    (get : C -> R -> Z) (cols : list C) (df : list R)
  : list (K * list (C * Z)) :=
  map (fun k =>
         (k, map (fun c => (c, sum (map (get c) (get_group key df k)))) cols))
      (group_keys key df).

(** [df[cols].sum()]: the int64 sum of each listed column, labelled by
    the column. *)
Definition sum_columns {R C : Type} (get : C -> R -> Z) (cols : list C)
    (df : list R) : list (C * Z) :=
  map (fun c => (c, sum (map (get c) df))) cols.

(** Addition of two Series with the same labels, value by value. *)
Definition add_values {C : Type} (a b : list (C * Z)) : list (C * Z) :=
  map (fun '((c, x), (_, y)) => (c, int64_add x y)) (combine a b).

(** [df.groupby(key)[col].mean()]: one entry per group key, in key order,
    with the float64 mean of the column over the rows of the group. *)
Definition groupby_mean {R K : Type} `{Label K} (key : R -> K) (col : R -> Z)
    (df : list R) : list (K * float64) :=
  map (fun k => (k, mean (map col (get_group key df k)))) (group_keys key df).

(** ** Sorting a Series by value

    [Series.sort_values(ascending=False)] with no [kind] runs the default
    sorting algorithm, [kind='quicksort'], through [nargsort]: the values
    are reversed, sorted in ascending order by [kind], and the result is
    reversed again.  The algorithm is a parameter here: [kind] takes the
    entries of a Series and returns them in ascending order of value. *)

Definition Kind (K : Type) : Type := Series K -> Series K.

Definition sort_values_descending {K : Type} (kind : Kind K) (s : Series K)
  : Series K :=
  rev (kind (rev s)).

(** [Series.head(n)]. *)
Definition head {K : Type} (n : nat) (s : Series K) : Series K := firstn n s.

(** A stable ascending sort by insertion, the order [kind='stable'] gives:
    an entry goes behind the entries of equal value that came before it. *)
Fixpoint insert_by_value {K : Type} (e : K * Z) (l : Series K) : Series K :=
  match l with
  | [] => [e]
  | h :: t => if (snd e <? snd h)%Z then e :: l else h :: insert_by_value e t
  end.

Definition stable_kind {K : Type} : Kind K :=
  fun s => fold_left (fun acc e => insert_by_value e acc) s [].

(** An ascending sort that is not stable: an entry goes in front of the
    entries of equal value that came before it. *)
Fixpoint insert_before_equal {K : Type} (e : K * Z) (l : Series K)
  : Series K :=
  match l with
  | [] => [e]
  | h :: t =>
      if (snd e <=? snd h)%Z then e :: l else h :: insert_before_equal e t
  end.

Definition unstable_kind {K : Type} : Kind K :=
  fun s => fold_left (fun acc e => insert_before_equal e acc) s [].

(** ** A frame built from two Series

    [pd.DataFrame({a: s1, b: s2})] aligns the two Series on the union of
    their indexes (sorted); a label absent from one Series gets the
    missing value there.  [fillna(0)] replaces the missing values by 0. *)

Definition union_indexes {K : Type} `{Label K} (i1 i2 : list K) : list K :=
  sorted (unique (i1 ++ i2)).

Definition frame_of_two {K : Type} `{Label K} (s1 s2 : Series K)
  : list (K * (option Z * option Z)) :=
  map (fun k => (k, (lookup s1 k, lookup s2 k)))
      (union_indexes (index s1) (index s2)).

Definition fillna {K : Type} (fill : Z) (f : list (K * (option Z * option Z)))
  : list (K * (Z * Z)) :=
  map (fun '(k, (a, b)) =>
         (k, (match a with Some x => x | None => fill end,
              match b with Some y => y | None => fill end))) f.

(** ** int64 columns that become float64

    A Series that alignment leaves a missing value in is converted to
    float64 (an int64 column has no missing value).  The conversion of an
    int64 value rounds it to the nearest value with a 53-bit significand,
    ties to even; an integer below 2^53 in magnitude is kept.  Here the
    integer is the exact value of the float64 cell. *)

Definition float64_of_int64 (z : Z) : Z :=
  let a := Z.abs z in
  let e := (Z.log2 a - 52)%Z in
  if (e <=? 0)%Z then z
  else
    let q := (a / 2 ^ e)%Z in
    let r := (a mod 2 ^ e)%Z in
    let half := (2 ^ (e - 1))%Z in
    let q' := if ((half <? r) || ((r =? half) && Z.odd q))%Z
              then (q + 1)%Z else q in
    (Z.sgn z * (q' * 2 ^ e))%Z.

Definition is_missing (cell : option Z) : bool :=
  match cell with None => true | Some _ => false end.

Definition upcast (column : list (option Z)) : list (option Z) :=
  if existsb is_missing column
  then map (option_map float64_of_int64) column
  else column.

(** [pd.DataFrame({a: s1, b: s2})] with the dtype of each column: the
    aligned cells, each column converted when it has a missing cell. *)
Definition frame_of_two_cells {K : Type} `{Label K} (s1 s2 : Series K)
  : list (K * (option Z * option Z)) :=
  let frame := frame_of_two s1 s2 in
  combine (map fst frame)
          (combine (upcast (map (fun row => fst (snd row)) frame))
                   (upcast (map (fun row => snd (snd row)) frame))).

(** ** Pearson correlation

    [DataFrame.corr()] (method 'pearson', [min_periods=1]) on two columns
    of one table, none with a missing value: with [nobs] rows, the sums of
    squared deviations from the mean of each column and the sum of the
    products of the deviations; the cell is their quotient by
    [sqrt(ssqdm_x * ssqdm_y)], brought back into [-1, 1], and not a number
    when there is no row or the divisor is 0.  (pandas updates the sums
    row by row; in exact arithmetic the order of the updates is
    immaterial.  It computes each pair of columns once and writes the
    value to both cells of the matrix.) *)

Definition ssqdm (x : list R) : R :=
  let m := (fsum x / INR (length x))%R in
  fsum (map (fun a => ((a - m) ^ 2)%R) x).

Definition covxy (x y : list R) : R :=
  let mx := (fsum x / INR (length x))%R in
  let my := (fsum y / INR (length y))%R in
  fsum (map (fun '(a, b) => ((a - mx) * (b - my))%R) (combine x y)).

Definition clip (val : R) : R :=
  if Rlt_dec 1 val then 1%R
  else if Rlt_dec val (-1) then (-1)%R else val.

Definition pearson (x y : list Z) : float64 :=
  match x with
  | [] => NaN
  | _ =>
      let divisor := sqrt (ssqdm (map IZR x) * ssqdm (map IZR y)) in
      if Req_dec_T divisor 0 then NaN
      else Fin (clip (covxy (map IZR x) (map IZR y) / divisor))
  end.

End Pandas.

Module Dashboard.

Import Pandas.

(** ** The flight table

    One row of [clean_flight_data.csv] after [load_data]: the departure
    date is a timestamp (nanoseconds since the epoch, as [to_datetime]
    stores it), the segment and flight number are text, the other columns
    are int64. *)

Record FlightRecord : Type := {
  departure_date : Z;
  flight_number : string;
  segment : string;
  adults : Z;
  infants : Z;
  total_booked : Z;
  no_shows : Z;
  flown_load : Z;
  booked_load : Z
}.

Definition DataFrame : Type := list FlightRecord.

(** The numeric columns, by name. *)
Inductive Column : Type :=
| Adults | Infants | Total_Booked | No_Shows | Flown_Load | Booked_Load.

Definition get (c : Column) (r : FlightRecord) : Z :=
  match c with
  | Adults => adults r
  | Infants => infants r
  | Total_Booked => total_booked r
  | No_Shows => no_shows r
  | Flown_Load => flown_load r
  | Booked_Load => booked_load r
  end.

Definition ns_per_day : Z := 86400000000000.

(** [.dt.date]: the calendar day of a timestamp, as days since the epoch. *)
Definition dt_date (t : Z) : Z := (t / ns_per_day)%Z.

(** ** Page 1: Filter by Date *)

Module ByDate.

Definition unique_dates (df : DataFrame) : list Z :=
  unique (map (fun r => dt_date (departure_date r)) df).

(** The dates offered by the select box. *)
Definition options (df : DataFrame) : list Z := sorted (unique_dates df).

Definition filtered_df (df : DataFrame) (selected_date : Z) : DataFrame :=
  boolean_index df
    (map (fun r => Z.eqb (dt_date (departure_date r)) selected_date) df).

Definition summary (df : DataFrame) (selected_date : Z) : list (Column * Z) :=
  sum_columns get [Adults; Infants; Total_Booked]
    (filtered_df df selected_date).

Definition no_shows_by_segment (df : DataFrame) (selected_date : Z)
  : Series string :=
  groupby_sum segment no_shows (filtered_df df selected_date).

End ByDate.

(** ** Page 2: Filter by Segment *)

Module BySegment.

Definition segments (df : DataFrame) : list string :=
  unique (map segment df).

Definition options (df : DataFrame) : list string := sorted (segments df).

Definition filtered_df (df : DataFrame) (selected_segment : string)
  : DataFrame :=
  boolean_index df
    (map (fun r => String.eqb (segment r) selected_segment) df).

Definition daily_totals (df : DataFrame) (selected_segment : string)
  : list (Z * list (Column * Z)) :=
  groupby_sum_columns departure_date get [Adults; Infants; Total_Booked]
    (filtered_df df selected_segment).

Definition no_shows_daily (df : DataFrame) (selected_segment : string)
  : Series Z :=
  groupby_sum departure_date no_shows (filtered_df df selected_segment).

End BySegment.

(** ** Page 3: Advanced Statistics

    The averages, the group sums, the rankings, the correlation matrix
    and the outliers of the page. *)

Module AdvancedStatistics.

(** [avg_passengers]: per segment, the mean of Adults, the mean of
    Infants, and the column [Total] that the script adds, their sum. *)
Definition avg_passengers (df : DataFrame)
  : list (string * (float64 * float64 * float64)) :=
  map (fun '((k, a), (_, i)) => (k, (a, i, fadd a i)))
      (combine (groupby_mean segment adults df)
               (groupby_mean segment infants df)).

Definition top_segments (kind : Kind string) (df : DataFrame)
  : Series string :=
  head 5 (sort_values_descending kind (groupby_sum segment flown_load df)).

Definition top_dates (kind : Kind Z) (df : DataFrame) : Series Z :=
  head 5
    (sort_values_descending kind (groupby_sum departure_date total_booked df)).

Definition no_shows_by_date (df : DataFrame) : Series Z :=
  groupby_sum departure_date no_shows df.

Definition outlier_threshold (df : DataFrame) : float64 :=
  fadd (mean (map no_shows df)) (fmul (Fin 2) (std (map no_shows df))).

Definition outliers (df : DataFrame) : DataFrame :=
  boolean_index df
    (map (fun r => fgt (float_of_int (no_shows r)) (outlier_threshold df)) df).

(** [numeric_df]: the columns of number dtype, in table order. *)
Definition numeric_columns : list Column :=
  [Adults; Infants; Total_Booked; No_Shows; Flown_Load; Booked_Load].

(** [corr]: the correlation matrix, a row per numeric column, a cell per
    numeric column. *)
Definition corr (df : DataFrame) : list (Column * list (Column * float64)) :=
  map (fun ci =>
         (ci, map (fun cj =>
                     (cj, pearson (map (get ci) df) (map (get cj) df)))
                  numeric_columns))
      numeric_columns.

End AdvancedStatistics.

(** ** Page 4: Compare Two Segments

    The page is the list of the elements it renders, in order, for the
    two segments the select boxes return. *)

Module CompareSegments.

Inductive Element : Type :=
| st_header (text : string)
| st_selectbox (label : string) (choices : list string)
| st_warning (text : string)
| st_subheader (text : string)
| st_write (totals : list (Column * Z))
| st_pyplot_trends (daily1 daily2 : list (Z * (Z * Z * Z)))
| st_line_chart (columns : string * string) (data : list (Z * (Z * Z)))
| st_pyplot_scatter (points1 points2 : list (Z * Z)).

Definition segments (df : DataFrame) : list string :=
  sorted (unique (map segment df)).

Definition select_segment (df : DataFrame) (seg : string) : DataFrame :=
  boolean_index df (map (fun r => String.eqb (segment r) seg) df).

Definition summary_columns : list Column :=
  [Adults; Infants; Total_Booked; No_Shows; Flown_Load].

(** [daily1], [daily2]: adults and infants summed per departure date,
    with the column [Total] added to the frame. *)
Definition daily (dfi : DataFrame) : list (Z * (Z * Z * Z)) :=
  map (fun k =>
         let a := sum (map adults (get_group departure_date dfi k)) in
         let i := sum (map infants (get_group departure_date dfi k)) in
         (k, (a, i, int64_add a i)))
      (group_keys departure_date dfi).

(** [no_shows1], [no_shows2]. *)
Definition no_shows_of (dfi : DataFrame) : Series Z :=
  groupby_sum departure_date no_shows dfi.

Definition compare_df (df : DataFrame) (seg1 seg2 : string)
  : list (Z * (Z * Z)) :=
  fillna 0%Z
    (frame_of_two (no_shows_of (select_segment df seg1))
                  (no_shows_of (select_segment df seg2))).

Definition scatter (dfi : DataFrame) : list (Z * Z) :=
  map (fun r => (booked_load r, flown_load r)) dfi.

Definition page (df : DataFrame) (seg1 seg2 : string) : list Element :=
  [st_header "📌 Compare Two Segments";
   st_selectbox "Select First Segment" (segments df);
   st_selectbox "Select Second Segment" (segments df)]
  ++
  if String.eqb seg1 seg2 then
    [st_warning "Please select two different segments."]
  else
    let df1 := select_segment df seg1 in
    let df2 := select_segment df seg2 in
    [st_subheader ("Summary for " ++ seg1);
     st_write (sum_columns get summary_columns df1);
     st_subheader ("Summary for " ++ seg2);
     st_write (sum_columns get summary_columns df2);
     st_subheader "📈 Passenger Trends";
     st_pyplot_trends (daily df1) (daily df2);
     st_subheader "📉 No Shows Comparison Over Time";
     st_line_chart (seg1, seg2) (compare_df df seg1 seg2);
     st_subheader "🟡 Booked vs Flown Load";
     st_pyplot_scatter (scatter df1) (scatter df2)].

(** The elements that show a result of a query on the table (the rest are
    titles, input controls and notices). *)
Definition shows_result (e : Element) : bool :=
  match e with
  | st_write _ | st_pyplot_trends _ _ | st_line_chart _ _
  | st_pyplot_scatter _ _ => true
  | st_header _ | st_selectbox _ _ | st_warning _ | st_subheader _ => false
  end.

(** The cells of [compare_df] as the program holds them: [compare_df]
    above has the exact sums; a column with a date missing is float64, its
    sums converted before the missing cells are filled. *)
Definition compare_df_cells (df : DataFrame) (seg1 seg2 : string)
  : list (Z * (Z * Z)) :=
  fillna 0%Z
    (frame_of_two_cells (no_shows_of (select_segment df seg1))
                        (no_shows_of (select_segment df seg2))).

(** A run of the page.  [page] above is what the page renders once both
    select boxes have returned [seg1] and [seg2], which they do when the
    table has at least two segments.  The second select box is created
    with [index=1]: with a single segment that index is out of range and
    streamlit raises, after the title and the first select box.  With no
    segment at all both select boxes are empty and return [None], and the
    guard compares [None] with [None]. *)
Inductive Outcome : Type :=
| Rendered (elements : list Element)
| Raised (elements : list Element).

Definition run (df : DataFrame) (seg1 seg2 : string) : Outcome :=
  match segments df with
  | [] =>
      Rendered
        [st_header "📌 Compare Two Segments";
         st_selectbox "Select First Segment" [];
         st_selectbox "Select Second Segment" [];
         st_warning "Please select two different segments."]
  | [_] =>
      Raised
        [st_header "📌 Compare Two Segments";
         st_selectbox "Select First Segment" (segments df)]
  | _ :: _ :: _ => Rendered (page df seg1 seg2)
  end.

End CompareSegments.

End Dashboard.

(** * Sample tables *)

Module Samples.

Import Pandas Dashboard.

(** A flight on a date, with its segment, adults, infants, no shows and
    flown load; booked totals are adults plus infants. *)
Definition flight (date : Z) (seg : string) (a i ns fl : Z) : FlightRecord :=
  {| departure_date := date; flight_number := "XY100"; segment := seg;
     adults := a; infants := i; total_booked := a + i; no_shows := ns;
     flown_load := fl; booked_load := a + i |}.

(** Midnight of the n-th of January 2024. *)
Definition jan (n : Z) : Z := ((19722 + n) * ns_per_day)%Z.

(** SEG-A flies on 01-01 and 01-02, SEG-B on 01-02 and 01-03. *)
Definition two_segments : DataFrame :=
  [flight (jan 1) "SEG-A" 2 0 1 2; flight (jan 2) "SEG-A" 4 1 2 5;
   flight (jan 2) "SEG-B" 5 1 4 6; flight (jan 3) "SEG-B" 3 0 3 3].

(** Two segments on one day. *)
Definition one_day : DataFrame :=
  [flight (jan 1) "SEG-A" 2 0 1 2; flight (jan 1) "SEG-B" 5 1 0 6].

(** Two segments with the same flown load. *)
Definition equal_loads : DataFrame :=
  [flight (jan 1) "SEG-A" 6 0 1 10; flight (jan 1) "SEG-B" 5 1 0 10].

(** One flight, with 3 no shows. *)
Definition single_flight : DataFrame := [flight (jan 1) "SEG-A" 2 0 3 2].

(** Three flights with 3 no shows each. *)
Definition constant_no_shows : DataFrame :=
  [flight (jan 1) "SEG-A" 2 0 3 2; flight (jan 2) "SEG-A" 4 1 3 5;
   flight (jan 2) "SEG-B" 5 1 3 6].

(** Six flights: five without no shows, one with 1. *)
Definition six_flights : DataFrame :=
  [flight (jan 1) "SEG-A" 2 0 0 2; flight (jan 2) "SEG-A" 2 0 0 2;
   flight (jan 3) "SEG-A" 2 0 0 2; flight (jan 4) "SEG-A" 2 0 0 2;
   flight (jan 5) "SEG-A" 2 0 0 2; flight (jan 6) "SEG-A" 2 0 1 2].

End Samples.

(** * Notions of the specification

    The mathematical notions that the properties below compare the
    queries with. *)

Module Spec.

Import Pandas.

(** The sum of a list of integers, without wrap-around. *)
Definition Zsum (l : list Z) : Z := fold_right Z.add 0%Z l.

(** The sum of a list of reals. *)
Definition Rsum (l : list R) : R := fold_right Rplus 0%R l.

(** The sample standard deviation of [x1 .. xN]: the square root of the
    sum of the squared deviations from the arithmetic mean, divided by
    [N - 1]. *)
Definition arithmetic_mean (l : list R) : R := (Rsum l / INR (length l))%R.

Definition sample_standard_deviation (l : list R) : R :=
  sqrt (Rsum (map (fun x => ((x - arithmetic_mean l) ^ 2)%R) l)
        / (INR (length l) - 1)).

(** The population standard deviation divides by [N]. *)
Definition population_standard_deviation (l : list R) : R :=
  sqrt (Rsum (map (fun x => ((x - arithmetic_mean l) ^ 2)%R) l)
        / INR (length l)).

(** A ranked list in descending order: no entry has a smaller value than
    an entry behind it. *)
Definition descending {K : Type} (s : Series K) : Prop :=
  StronglySorted (fun a b => (snd b <= snd a)%Z) s.

(** Strictly descending: every entry has a larger value than the entries
    behind it. *)
Definition strictly_descending {K : Type} (s : Series K) : Prop :=
  StronglySorted (fun a b => (snd b < snd a)%Z) s.

(** The entries of a Series that have a given value, in order. *)
Definition ties {K : Type} (v : Z) (s : Series K) : Series K :=
  filter (fun e => Z.eqb (snd e) v) s.

(** What the dashboard needs from a sorting algorithm: the entries come
    back rearranged, in ascending order of value. *)
Definition sorts {K : Type} (kind : Kind K) : Prop :=
  forall s, Permutation (kind s) s
            /\ StronglySorted (fun a b => (snd a <= snd b)%Z) (kind s).

(** A stable sorting algorithm keeps entries of equal value in the order
    they came in. *)
Definition stable {K : Type} (kind : Kind K) : Prop :=
  forall s v, ties v (kind s) = ties v s.

End Spec.

(** * Properties *)

Import Pandas Dashboard Spec.

(** ** Selecting rows, distinct values, sorted values *)

Section Selection.

Context {R : Type}.

Lemma boolean_index_map (p : R -> bool) (df : list R) :
  boolean_index df (map p df) = filter p df.
Proof.
  induction df as [|r df IH]; simpl; [reflexivity|].
  rewrite IH. reflexivity.
Qed.

Lemma boolean_index_all_false (df : list R) (mask : list bool) :
  Forall (fun b => b = false) mask -> boolean_index df mask = [].
Proof.
  intros Hm. revert df.
  induction Hm as [|b mask Hb _ IH]; intros [|r df]; simpl; try reflexivity.
  rewrite Hb. apply IH.
Qed.

End Selection.

Section Labels.

Context {K : Type} `{Label K}.

Lemma eqb_true_iff (a b : K) : eqb a b = true <-> a = b.
Proof. destruct (eqb_spec a b); split; congruence. Qed.

Lemma eqb_false_iff (a b : K) : eqb a b = false <-> a <> b.
Proof. destruct (eqb_spec a b); split; congruence. Qed.

Lemma eqb_refl (a : K) : eqb a a = true.
Proof. apply eqb_true_iff. reflexivity. Qed.

Lemma unique_In (l : list K) (x : K) : In x (unique l) <-> In x l.
Proof.
  induction l as [|a l IH]; simpl; [tauto|].
  rewrite filter_In, IH, negb_true_iff, eqb_false_iff.
  destruct (eqb_spec x a) as [->|Hne]; [tauto|].
  split.
  - intros [Ha|[Hx _]]; [left; exact Ha | right; exact Hx].
  - intros [Ha|Hx]; [left; exact Ha | right; split; assumption].
Qed.

Lemma unique_NoDup (l : list K) : NoDup (unique l).
Proof.
  induction l as [|a l IH]; simpl; constructor.
  - rewrite filter_In, negb_true_iff, eqb_false_iff. intros [_ Hne].
    apply Hne. reflexivity.
  - apply NoDup_filter. exact IH.
Qed.

Lemma insert_sorted_Permutation (k : K) (l : list K) :
  Permutation (insert_sorted k l) (k :: l).
Proof.
  induction l as [|h t IH]; simpl; [reflexivity|].
  destruct (leb k h); [reflexivity|].
  rewrite IH. apply perm_swap.
Qed.

Lemma sorted_Permutation (l : list K) : Permutation (sorted l) l.
Proof.
  induction l as [|a l IH]; simpl; [reflexivity|].
  rewrite insert_sorted_Permutation. constructor. exact IH.
Qed.

Lemma sorted_In (l : list K) (x : K) : In x (sorted l) <-> In x l.
Proof.
  split; apply Permutation_in;
    [apply sorted_Permutation | symmetry; apply sorted_Permutation].
Qed.

Lemma sorted_length (l : list K) : length (sorted l) = length l.
Proof. apply Permutation_length, sorted_Permutation. Qed.

Lemma sorted_NoDup (l : list K) : NoDup l -> NoDup (sorted l).
Proof.
  apply Permutation_NoDup. symmetry. apply sorted_Permutation.
Qed.

End Labels.

(** ** Splitting a table by the values of a key *)

Section SplitByKey.

Context {R K : Type} `{Label K}.
Variable key : R -> K.

Lemma get_group_In (df : list R) (k : K) (r : R) :
  In r (get_group key df k) <-> In r df /\ key r = k.
Proof. unfold get_group. rewrite filter_In, eqb_true_iff. tauto. Qed.

Lemma get_group_absent (df : list R) (k : K) :
  ~ In k (map key df) -> get_group key df k = [].
Proof.
  intros Hk. induction df as [|r df IH]; simpl; [reflexivity|].
  destruct (eqb_spec (key r) k) as [Heq|_].
  - exfalso. apply Hk. left. exact Heq.
  - apply IH. intros Hin. apply Hk. right. exact Hin.
Qed.

Lemma groups_skip (r : R) (df : list R) (ks : list K) :
  ~ In (key r) ks ->
  flat_map (get_group key (r :: df)) ks = flat_map (get_group key df) ks.
Proof.
  induction ks as [|k ks IH]; intros Hk; simpl; [reflexivity|].
  destruct (eqb_spec (key r) k) as [Heq|_].
  - exfalso. apply Hk. left. symmetry. exact Heq.
  - f_equal. apply IH. intros Hin. apply Hk. right. exact Hin.
Qed.

Lemma groups_take (r : R) (df : list R) (ks : list K) :
  NoDup ks -> In (key r) ks ->
  Permutation (flat_map (get_group key (r :: df)) ks)
              (r :: flat_map (get_group key df) ks).
Proof.
  induction 1 as [|k ks Hk Hnd IH]; intros Hin; [destruct Hin|].
  simpl. destruct (eqb_spec (key r) k) as [Heq|Hne].
  - subst k. simpl. constructor.
    rewrite groups_skip by exact Hk. reflexivity.
  - destruct Hin as [Heq|Hin]; [congruence|].
    rewrite (IH Hin). symmetry. apply Permutation_middle.
Qed.

Lemma groups_partition (df : list R) (ks : list K) :
  NoDup ks -> (forall r, In r df -> In (key r) ks) ->
  Permutation (flat_map (get_group key df) ks) df.
Proof.
  intros Hnd. induction df as [|r df IH]; intros Hall.
  - clear Hnd Hall. induction ks as [|k ks IHk]; simpl; [reflexivity|exact IHk].
  - rewrite groups_take; [|exact Hnd|apply Hall; left; reflexivity].
    constructor. apply IH. intros r' Hr'. apply Hall. right. exact Hr'.
Qed.

End SplitByKey.

(** ** C1: FilterByDate *)

Local Abbreviation date_of := (fun r : FlightRecord => dt_date (departure_date r)).

Lemma filtered_df_by_date (df : DataFrame) (d : Z) :
  ByDate.filtered_df df d = get_group date_of df d.
Proof. unfold ByDate.filtered_df. apply boolean_index_map. Qed.

(** C1. For every table and every date [d], [filtered_df] of the By Date
    page is exactly the rows of the table whose departure date is [d], in
    table order; the sub-tables of the distinct dates of the table
    partition it: the distinct dates have no repetition, the sub-tables put
    together are the table up to the order of the rows, and every row of
    the table is in the sub-table of exactly one date. *)
Theorem filter_by_date_partitions (df : DataFrame) :
  (forall d, ByDate.filtered_df df d
             = filter (fun r => Z.eqb (dt_date (departure_date r)) d) df)
  /\ (forall d r, In r (ByDate.filtered_df df d)
                  <-> In r df /\ dt_date (departure_date r) = d)
  /\ NoDup (ByDate.unique_dates df)
  /\ Permutation (flat_map (ByDate.filtered_df df) (ByDate.unique_dates df)) df
  /\ (forall r, In r df ->
        exists d, (In d (ByDate.unique_dates df)
                   /\ In r (ByDate.filtered_df df d))
                  /\ forall d', In r (ByDate.filtered_df df d') -> d' = d).
Proof.
  assert (Hin : forall d r, In r (ByDate.filtered_df df d)
                            <-> In r df /\ dt_date (departure_date r) = d).
  { intros d r. rewrite filtered_df_by_date. apply (get_group_In date_of). }
  split; [|split; [exact Hin|split; [|split]]].
  - intros d. apply filtered_df_by_date.
  - apply unique_NoDup.
  - rewrite (flat_map_ext _ (get_group date_of df))
      by (intros d; apply filtered_df_by_date).
    apply groups_partition; [apply unique_NoDup|].
    intros r Hr. apply unique_In. apply (in_map date_of). exact Hr.
  - intros r Hr. exists (date_of r). split; [split|].
    + apply unique_In. apply (in_map date_of). exact Hr.
    + apply Hin. split; [exact Hr|reflexivity].
    + intros d' Hd'. apply Hin in Hd'. symmetry. apply Hd'.
Qed.

(** ** C2: the guard of the Compare Segments page *)

(** Once both select boxes have returned the same segment, the page
    renders the warning and no result. *)
Lemma page_same_segment (df : DataFrame) (X : string) :
  CompareSegments.page df X X
  = [CompareSegments.st_header "📌 Compare Two Segments";
     CompareSegments.st_selectbox "Select First Segment"
       (CompareSegments.segments df);
     CompareSegments.st_selectbox "Select Second Segment"
       (CompareSegments.segments df);
     CompareSegments.st_warning "Please select two different segments."].
Proof.
  unfold CompareSegments.page. rewrite String.eqb_refl. reflexivity.
Qed.

(** C2 fails on a table with a single segment.  For every table whose
    rows all have one and the same segment, and whatever the selection,
    the run of the Compare Segments page ends in the exception of the
    second select box ([index=1] with one option), after the title and the
    first select box: the guard [seg1 == seg2] is not reached and no
    warning is rendered. *)
Theorem compare_single_segment_raises (df : DataFrame) (seg1 seg2 : string) :
  length (CompareSegments.segments df) = 1%nat ->
  CompareSegments.run df seg1 seg2
  = CompareSegments.Raised
      [CompareSegments.st_header "📌 Compare Two Segments";
       CompareSegments.st_selectbox "Select First Segment"
         (CompareSegments.segments df)]
  /\ forall elements text,
       CompareSegments.run df seg1 seg2 = CompareSegments.Raised elements ->
       ~ In (CompareSegments.st_warning text) elements.
Proof.
  intros Hone. unfold CompareSegments.run.
  destruct (CompareSegments.segments df) as [|s [|s' rest]];
    try discriminate Hone.
  split; [reflexivity|].
  intros elements text Heq. inversion Heq; subst.
  intros [H|[H|[]]]; discriminate H.
Qed.

Lemma compare_single_segment_raises_witness :
  length (CompareSegments.segments Samples.single_flight) = 1%nat
  /\ CompareSegments.run Samples.single_flight "SEG-A" "SEG-A"
     = CompareSegments.Raised
         [CompareSegments.st_header "📌 Compare Two Segments";
          CompareSegments.st_selectbox "Select First Segment"
            (CompareSegments.segments Samples.single_flight)].
Proof.
  split; [reflexivity|].
  apply (compare_single_segment_raises Samples.single_flight
           "SEG-A" "SEG-A" eq_refl).
Defined.

(** X15. On a table with no segment or with at least two segments, the
    run of the Compare Segments page with the same segment chosen twice
    renders the title, the two select boxes and the warning, and nothing
    else: no element shows the result of a query. *)
Theorem compare_same_segment_warning (df : DataFrame) (X : string) :
  length (CompareSegments.segments df) <> 1%nat ->
  CompareSegments.run df X X
  = CompareSegments.Rendered
      [CompareSegments.st_header "📌 Compare Two Segments";
       CompareSegments.st_selectbox "Select First Segment"
         (CompareSegments.segments df);
       CompareSegments.st_selectbox "Select Second Segment"
         (CompareSegments.segments df);
       CompareSegments.st_warning "Please select two different segments."]
  /\ forall elements,
       CompareSegments.run df X X = CompareSegments.Rendered elements ->
       Forall (fun e => CompareSegments.shows_result e = false) elements.
Proof.
  intros Hn.
  assert (Hrun : CompareSegments.run df X X
    = CompareSegments.Rendered
        [CompareSegments.st_header "📌 Compare Two Segments";
         CompareSegments.st_selectbox "Select First Segment"
           (CompareSegments.segments df);
         CompareSegments.st_selectbox "Select Second Segment"
           (CompareSegments.segments df);
         CompareSegments.st_warning "Please select two different segments."]).
  { unfold CompareSegments.run.
    destruct (CompareSegments.segments df) as [|s [|s' rest]] eqn:Hseg.
    - reflexivity.
    - exfalso. apply Hn. reflexivity.
    - rewrite page_same_segment, Hseg. reflexivity. }
  split; [exact Hrun|].
  intros elements Heq. rewrite Hrun in Heq. inversion Heq; subst.
  repeat constructor.
Qed.

Lemma compare_same_segment_warning_witness :
  length (CompareSegments.segments Samples.two_segments) <> 1%nat
  /\ CompareSegments.run Samples.two_segments "SEG-A" "SEG-A"
     = CompareSegments.Rendered
         [CompareSegments.st_header "📌 Compare Two Segments";
          CompareSegments.st_selectbox "Select First Segment"
            (CompareSegments.segments Samples.two_segments);
          CompareSegments.st_selectbox "Select Second Segment"
            (CompareSegments.segments Samples.two_segments);
          CompareSegments.st_warning
            "Please select two different segments."].
Proof.
  assert (Hn : length (CompareSegments.segments Samples.two_segments)
               <> 1%nat) by (vm_compute; discriminate).
  split; [exact Hn|].
  apply (compare_same_segment_warning Samples.two_segments "SEG-A" Hn).
Defined.

(** ** int64 sums *)

Lemma int64_wrap_add_l (a b : Z) :
  int64_wrap (int64_wrap a + b) = int64_wrap (a + b).
Proof.
  unfold int64_wrap. f_equal.
  replace ((a + 2 ^ 63) mod 2 ^ 64 - 2 ^ 63 + b + 2 ^ 63)%Z
    with ((a + 2 ^ 63) mod 2 ^ 64 + b)%Z by ring.
  rewrite Zplus_mod_idemp_l. f_equal. ring.
Qed.

Lemma int64_wrap_add_r (a b : Z) :
  int64_wrap (a + int64_wrap b) = int64_wrap (a + b).
Proof. rewrite Z.add_comm, int64_wrap_add_l, Z.add_comm. reflexivity. Qed.

Lemma int64_wrap_idem (a : Z) : int64_wrap (int64_wrap a) = int64_wrap a.
Proof.
  pose proof (int64_wrap_add_l a 0) as Hw.
  rewrite !Z.add_0_r in Hw. exact Hw.
Qed.

Lemma int64_wrap_small (a : Z) :
  (- 2 ^ 63 <= a < 2 ^ 63)%Z -> int64_wrap a = a.
Proof.
  intros Ha. unfold int64_wrap. rewrite Z.mod_small; lia.
Qed.

Lemma fold_int64_add (l : list Z) (a : Z) :
  fold_left int64_add l (int64_wrap a) = int64_wrap (a + Zsum l).
Proof.
  revert a. induction l as [|x l IH]; intros a; simpl.
  - rewrite Z.add_0_r. reflexivity.
  - unfold int64_add at 2. rewrite int64_wrap_add_l, IH. f_equal. ring.
Qed.

(** The int64 sum is the mathematical sum, wrapped. *)
Lemma sum_wrap (l : list Z) : sum l = int64_wrap (Zsum l).
Proof.
  unfold sum. change 0%Z with (int64_wrap 0) at 1.
  rewrite fold_int64_add. reflexivity.
Qed.

Lemma Zsum_Permutation (l l' : list Z) :
  Permutation l l' -> Zsum l = Zsum l'.
Proof.
  induction 1; simpl; lia.
Qed.

Lemma Zsum_app (l l' : list Z) : Zsum (l ++ l') = (Zsum l + Zsum l')%Z.
Proof. induction l as [|x l IH]; simpl; lia. Qed.

Lemma sum_app (l l' : list Z) : sum (l ++ l') = int64_add (sum l) (sum l').
Proof.
  rewrite !sum_wrap, Zsum_app. unfold int64_add.
  rewrite int64_wrap_add_l, int64_wrap_add_r. reflexivity.
Qed.

Lemma sum_Permutation (l l' : list Z) : Permutation l l' -> sum l = sum l'.
Proof. intros Hp. rewrite !sum_wrap, (@Zsum_Permutation l l' Hp). reflexivity. Qed.

(** ** C9: SumColumns *)

Section SumColumns.

Context {R C : Type}.
Variable get : C -> R -> Z.

Lemma sum_columns_app (cols : list C) (A B : list R) :
  sum_columns get cols (A ++ B)
  = add_values (sum_columns get cols A) (sum_columns get cols B).
Proof.
  unfold sum_columns, add_values.
  induction cols as [|c cols IH]; simpl; [reflexivity|].
  rewrite map_app, sum_app, IH. reflexivity.
Qed.

Lemma sum_columns_Permutation (cols : list C) (A B : list R) :
  Permutation A B -> sum_columns get cols A = sum_columns get cols B.
Proof.
  intros Hp. unfold sum_columns. apply map_ext. intros c.
  f_equal. apply sum_Permutation, Permutation_map, Hp.
Qed.

End SumColumns.

(** The rows selected by the union of two row masks that select no row in
    common are the rows selected by the one and the rows selected by the
    other. *)
Lemma boolean_index_union {R : Type} (df : list R) (mA mB : list bool) :
  Forall2 (fun a b => a && b = false) mA mB ->
  Permutation
    (boolean_index df (map (fun '(a, b) => a || b) (combine mA mB)))
    (boolean_index df mA ++ boolean_index df mB).
Proof.
  intros Hd. revert df.
  induction Hd as [|a b mA mB Hab _ IH]; intros [|r df]; simpl;
    try reflexivity.
  destruct a, b; simpl in *; try discriminate.
  - constructor. apply IH.
  - rewrite IH. apply Permutation_middle.
  - apply IH.
Qed.

(** C9. SumColumns is linear.  For every table, every column list and
    every two sub-tables [A] and [B] of the table, selected by row masks
    (one entry per row) with no row in common, the sums of the columns
    over the union of [A] and [B] are, column by column, the (int64) sums
    over [A] plus the sums over [B]. *)
Theorem sum_columns_linear (df : DataFrame) (cols : list Column)
    (mA mB : list bool) :
  length mA = length df ->
  Forall2 (fun a b => a && b = false) mA mB ->
  sum_columns get cols
    (boolean_index df (map (fun '(a, b) => a || b) (combine mA mB)))
  = add_values (sum_columns get cols (boolean_index df mA))
               (sum_columns get cols (boolean_index df mB)).
Proof.
  intros _ Hd. rewrite <- sum_columns_app.
  apply sum_columns_Permutation, boolean_index_union, Hd.
Qed.

(** ** C7: grouping an empty sub-table *)

Section GroupByEmpty.

Context {R K C : Type} `{Label K}.

Lemma groupby_sum_nil (key : R -> K) (col : R -> Z) :
  groupby_sum key col [] = [].
Proof. reflexivity. Qed.

Lemma groupby_sum_columns_nil (key : R -> K) (get : C -> R -> Z)
    (cols : list C) :
  groupby_sum_columns key get cols [] = [].
Proof. reflexivity. Qed.

End GroupByEmpty.

Lemma filtered_df_by_segment (df : DataFrame) (s : string) :
  BySegment.filtered_df df s = get_group segment df s.
Proof. unfold BySegment.filtered_df. apply boolean_index_map. Qed.

Lemma select_segment_rows (df : DataFrame) (seg : string) :
  CompareSegments.select_segment df seg = get_group segment df seg.
Proof. unfold CompareSegments.select_segment. apply boolean_index_map. Qed.

(** C7. A grouping query over an empty sub-table returns an empty result:
    for a date [d] that no row of the table has, the By Date page filters
    the table down to no row, and No Shows by Segment over that is empty;
    for a segment [s] that no row has, the By Segment page filters down to
    no row, and Daily Totals and Daily No Shows over that are empty, and
    so are the daily series of the Compare Segments page.  The queries are
    total functions: there is no error to raise.  (The column sums of the
    empty sub-table are all 0.) *)
Theorem grouping_empty_subtable (df : DataFrame) (d : Z) (s : string) :
  ~ In d (map (fun r => dt_date (departure_date r)) df) ->
  ~ In s (map segment df) ->
  ByDate.filtered_df df d = []
  /\ ByDate.no_shows_by_segment df d = []
  /\ ByDate.summary df d = [(Adults, 0%Z); (Infants, 0%Z); (Total_Booked, 0%Z)]
  /\ BySegment.filtered_df df s = []
  /\ BySegment.daily_totals df s = []
  /\ BySegment.no_shows_daily df s = []
  /\ CompareSegments.daily (CompareSegments.select_segment df s) = []
  /\ CompareSegments.no_shows_of (CompareSegments.select_segment df s) = []
  /\ AdvancedStatistics.no_shows_by_date [] = [].
Proof.
  intros Hd Hs.
  assert (Ed : ByDate.filtered_df df d = []).
  { rewrite filtered_df_by_date. apply (get_group_absent date_of), Hd. }
  assert (Es : BySegment.filtered_df df s = []).
  { rewrite filtered_df_by_segment. apply get_group_absent, Hs. }
  assert (Ec : CompareSegments.select_segment df s = []).
  { rewrite select_segment_rows. apply get_group_absent, Hs. }
  unfold ByDate.no_shows_by_segment, ByDate.summary,
    BySegment.daily_totals, BySegment.no_shows_daily.
  rewrite Ed, Es, Ec. repeat split; reflexivity.
Qed.

(** ** Series built by group-by: index and lookup *)

Section GroupBy.

Context {R K : Type} `{Label K}.

Lemma group_keys_In (key : R -> K) (df : list R) (k : K) :
  In k (group_keys key df) <-> In k (map key df).
Proof. unfold group_keys. rewrite sorted_In, unique_In. reflexivity. Qed.

Lemma group_keys_NoDup (key : R -> K) (df : list R) :
  NoDup (group_keys key df).
Proof. apply sorted_NoDup, unique_NoDup. Qed.

Lemma group_keys_length (key : R -> K) (df : list R) :
  length (group_keys key df) = length (unique (map key df)).
Proof. apply sorted_length. Qed.

Lemma groupby_sum_index (key : R -> K) (col : R -> Z) (df : list R) :
  index (groupby_sum key col df) = group_keys key df.
Proof.
  unfold index, groupby_sum. rewrite map_map. simpl. apply map_id.
Qed.

Lemma groupby_sum_length (key : R -> K) (col : R -> Z) (df : list R) :
  length (groupby_sum key col df) = length (unique (map key df)).
Proof.
  unfold groupby_sum. rewrite length_map. apply group_keys_length.
Qed.

Lemma lookup_absent (s : Series K) (k : K) :
  ~ In k (index s) -> lookup s k = None.
Proof.
  induction s as [|[k' v] s IH]; simpl; intros Hk; [reflexivity|].
  destruct (eqb_spec k' k) as [Heq|_].
  - exfalso. apply Hk. left. exact Heq.
  - apply IH. intros Hin. apply Hk. right. exact Hin.
Qed.

Lemma lookup_present (s : Series K) (k : K) (v : Z) :
  NoDup (index s) -> In (k, v) s -> lookup s k = Some v.
Proof.
  induction s as [|[k' v'] s IH]; simpl; intros Hnd Hin; [destruct Hin|].
  inversion Hnd as [|? ? Hk' Hnd']; subst.
  destruct Hin as [Heq|Hin].
  - inversion Heq; subst. rewrite eqb_refl. reflexivity.
  - destruct (eqb_spec k' k) as [Heq|_]; [|apply IH; assumption].
    subst k'. exfalso. apply Hk'. apply (in_map fst) in Hin. exact Hin.
Qed.

End GroupBy.

(** ** C3: the No Shows comparison of two segments *)

Lemma compare_df_rows (df : DataFrame) (seg1 seg2 : string) :
  let s1 := CompareSegments.no_shows_of (CompareSegments.select_segment df seg1) in
  let s2 := CompareSegments.no_shows_of (CompareSegments.select_segment df seg2) in
  CompareSegments.compare_df df seg1 seg2
  = map (fun k => (k, (match lookup s1 k with Some x => x | None => 0%Z end,
                       match lookup s2 k with Some y => y | None => 0%Z end)))
        (union_indexes (index s1) (index s2)).
Proof.
  intros s1 s2. unfold CompareSegments.compare_df, fillna, frame_of_two.
  rewrite map_map. reflexivity.
Qed.

Lemma no_shows_of_dates (df : DataFrame) (seg : string) (d : Z) :
  In d (index (CompareSegments.no_shows_of
                 (CompareSegments.select_segment df seg)))
  <-> exists r, In r df /\ segment r = seg /\ departure_date r = d.
Proof.
  unfold CompareSegments.no_shows_of.
  rewrite groupby_sum_index, group_keys_In, in_map_iff, select_segment_rows.
  split.
  - intros [r [Hd Hr]]. apply get_group_In in Hr. exists r. tauto.
  - intros [r [Hr [Hs Hd]]]. exists r. split; [exact Hd|].
    apply get_group_In. tauto.
Qed.

(** C3. For every table and every two distinct segments, the page charts
    [compare_df], whose date axis is the union of the dates of the two
    daily No Shows series, each date once: no date of either series is
    dropped and the series keeps its value there, and a date that one
    series does not have gets 0 in the column of that series.  Both
    columns are read along the same axis, as they are the two columns of
    one frame.  The dates of a series are the departure dates of the rows
    of its segment. *)
Theorem compare_aligned_on_union (df : DataFrame) (seg1 seg2 : string) :
  seg1 <> seg2 ->
  let no_shows1 :=
    CompareSegments.no_shows_of (CompareSegments.select_segment df seg1) in
  let no_shows2 :=
    CompareSegments.no_shows_of (CompareSegments.select_segment df seg2) in
  let compare_df := CompareSegments.compare_df df seg1 seg2 in
  In (CompareSegments.st_line_chart (seg1, seg2) compare_df)
     (CompareSegments.page df seg1 seg2)
  /\ NoDup (map fst compare_df)
  /\ (forall d, In d (map fst compare_df)
                <-> In d (index no_shows1) \/ In d (index no_shows2))
  /\ (forall d v, In (d, v) no_shows1 ->
                  exists v2, In (d, (v, v2)) compare_df)
  /\ (forall d v, In (d, v) no_shows2 ->
                  exists v1, In (d, (v1, v)) compare_df)
  /\ (forall d v1 v2, In (d, (v1, v2)) compare_df ->
                      (~ In d (index no_shows1) -> v1 = 0%Z)
                      /\ (~ In d (index no_shows2) -> v2 = 0%Z))
  /\ (forall d, In d (map fst compare_df)
                <-> exists r, In r df
                              /\ (segment r = seg1 \/ segment r = seg2)
                              /\ departure_date r = d).
Proof.
  intros Hne no_shows1 no_shows2 compare_df.
  assert (Hc : compare_df
    = map (fun k => (k, (match lookup no_shows1 k with
                         | Some x => x | None => 0%Z end,
                         match lookup no_shows2 k with
                         | Some y => y | None => 0%Z end)))
          (union_indexes (index no_shows1) (index no_shows2)))
    by apply compare_df_rows.
  assert (Haxis : map fst compare_df
                  = union_indexes (index no_shows1) (index no_shows2)).
  { rewrite Hc, map_map. simpl. apply map_id. }
  assert (Hin : forall d, In d (map fst compare_df)
                  <-> In d (index no_shows1) \/ In d (index no_shows2)).
  { intros d. rewrite Haxis. unfold union_indexes.
    rewrite sorted_In, unique_In, in_app_iff. reflexivity. }
  assert (Hnd1 : NoDup (index no_shows1)).
  { unfold no_shows1, CompareSegments.no_shows_of.
    rewrite groupby_sum_index. apply group_keys_NoDup. }
  assert (Hnd2 : NoDup (index no_shows2)).
  { unfold no_shows2, CompareSegments.no_shows_of.
    rewrite groupby_sum_index. apply group_keys_NoDup. }
  split; [|split; [|split; [exact Hin|split; [|split; [|split]]]]].
  - unfold CompareSegments.page.
    destruct (String.eqb_spec seg1 seg2) as [Heq|_]; [contradiction|].
    apply in_or_app. right. simpl. tauto.
  - rewrite Haxis. apply sorted_NoDup, unique_NoDup.
  - intros d v Hv.
    exists (match lookup no_shows2 d with Some y => y | None => 0%Z end).
    rewrite Hc. apply in_map_iff. exists d. split.
    + rewrite (lookup_present _ _ _ Hnd1 Hv). reflexivity.
    + rewrite <- Haxis. apply Hin. left. apply (in_map fst) in Hv. exact Hv.
  - intros d v Hv.
    exists (match lookup no_shows1 d with Some x => x | None => 0%Z end).
    rewrite Hc. apply in_map_iff. exists d. split.
    + rewrite (lookup_present _ _ _ Hnd2 Hv). reflexivity.
    + rewrite <- Haxis. apply Hin. right. apply (in_map fst) in Hv. exact Hv.
  - intros d v1 v2 Hrow. rewrite Hc in Hrow. apply in_map_iff in Hrow.
    destruct Hrow as [k [Hk _]]. inversion Hk; subst. split; intros Habs;
      rewrite (lookup_absent _ _ Habs); reflexivity.
  - intros d. rewrite Hin. unfold no_shows1, no_shows2.
    rewrite !no_shows_of_dates. split.
    + intros [[r Hr]|[r Hr]]; exists r; tauto.
    + intros [r [Hr [[Hs|Hs] Hd]]]; [left|right]; exists r; tauto.
Qed.

(** ** Sorting a Series by value, descending *)

Section SortValues.

Context {K : Type}.

Lemma StronglySorted_snoc (P : K * Z -> K * Z -> Prop) (l : Series K)
    (e : K * Z) :
  StronglySorted P l -> Forall (fun x => P x e) l ->
  StronglySorted P (l ++ [e]).
Proof.
  induction 1 as [|a l Hl IH Ha]; intros He; simpl.
  - repeat constructor.
  - inversion He; subst. constructor; [apply IH; assumption|].
    apply Forall_app. split; [exact Ha|repeat constructor; assumption].
Qed.

Lemma StronglySorted_rev (P : K * Z -> K * Z -> Prop) (l : Series K) :
  StronglySorted P l -> StronglySorted (fun a b => P b a) (rev l).
Proof.
  induction 1 as [|a l Hl IH Ha]; simpl; [constructor|].
  apply StronglySorted_snoc; [exact IH|].
  apply Forall_rev. exact Ha.
Qed.

Lemma In_firstn (n : nat) (l : Series K) (x : K * Z) :
  In x (firstn n l) -> In x l.
Proof.
  intros Hx. rewrite <- (firstn_skipn n l). apply in_or_app. left. exact Hx.
Qed.

Lemma StronglySorted_firstn (P : K * Z -> K * Z -> Prop) (n : nat)
    (l : Series K) :
  StronglySorted P l -> StronglySorted P (firstn n l).
Proof.
  intros Hl. revert n.
  induction Hl as [|a l Hl IH Ha]; intros [|n]; simpl; try constructor.
  - apply IH.
  - rewrite Forall_forall in *. intros x Hx. apply Ha.
    apply (In_firstn n). exact Hx.
Qed.

Variable kind : Kind K.
Hypothesis kind_sorts : sorts kind.

Lemma sort_values_descending_Permutation (s : Series K) :
  Permutation (sort_values_descending kind s) s.
Proof.
  unfold sort_values_descending.
  rewrite <- Permutation_rev. destruct (kind_sorts (rev s)) as [Hp _].
  rewrite Hp. symmetry. apply Permutation_rev.
Qed.

Lemma sort_values_descending_sorted (s : Series K) :
  descending (sort_values_descending kind s).
Proof.
  unfold sort_values_descending, descending.
  destruct (kind_sorts (rev s)) as [_ Hs].
  apply (StronglySorted_rev _ _ Hs).
Qed.

Lemma sort_values_descending_ties (s : Series K) (v : Z) :
  stable kind -> ties v (sort_values_descending kind s) = ties v s.
Proof.
  intros Hst. unfold sort_values_descending, ties.
  rewrite filter_rev. fold (ties v (kind (rev s))). rewrite Hst.
  unfold ties. rewrite filter_rev, rev_involutive. reflexivity.
Qed.

(** The first [n] entries of the Series sorted by value, descending. *)
Lemma head_sort_values (n : nat) (s : Series K) :
  let top := head n (sort_values_descending kind s) in
  descending top
  /\ length top = Nat.min n (length s)
  /\ (exists ranking, Permutation ranking s /\ descending ranking
                      /\ top = firstn n ranking)
  /\ (stable kind -> forall v, exists rest, ties v s = ties v top ++ rest).
Proof.
  intros top. unfold top, head. split; [|split; [|split]].
  - apply StronglySorted_firstn, sort_values_descending_sorted.
  - rewrite length_firstn.
    rewrite (Permutation_length (sort_values_descending_Permutation s)).
    reflexivity.
  - exists (sort_values_descending kind s).
    split; [apply sort_values_descending_Permutation|].
    split; [apply sort_values_descending_sorted|reflexivity].
  - intros Hst v.
    exists (ties v (skipn n (sort_values_descending kind s))).
    rewrite <- (sort_values_descending_ties s v Hst).
    unfold ties. rewrite <- filter_app, firstn_skipn. reflexivity.
Qed.

End SortValues.

(** ** The stable sort *)

Section StableKind.

Context {K : Type}.

Local Abbreviation ascending :=
  (StronglySorted (fun a b : K * Z => (snd a <= snd b)%Z)).

Lemma insert_by_value_Permutation (e : K * Z) (l : Series K) :
  Permutation (insert_by_value e l) (e :: l).
Proof.
  induction l as [|h t IH]; simpl; [reflexivity|].
  destruct (snd e <? snd h)%Z; [reflexivity|].
  rewrite IH. apply perm_swap.
Qed.

Lemma insert_by_value_sorted (e : K * Z) (l : Series K) :
  ascending l -> ascending (insert_by_value e l).
Proof.
  induction 1 as [|h t Ht IH Hh]; simpl; [repeat constructor|].
  destruct (Z.ltb_spec (snd e) (snd h)) as [Hlt|Hge].
  - constructor; [constructor; assumption|].
    constructor; [lia|].
    rewrite Forall_forall in *. intros x Hx. specialize (Hh x Hx). lia.
  - constructor; [exact IH|].
    rewrite Forall_forall in *. intros x Hx.
    apply (Permutation_in _ (insert_by_value_Permutation e t)) in Hx.
    destruct Hx as [<-|Hx]; [exact Hge|apply Hh; exact Hx].
Qed.

Lemma filter_none (p : K * Z -> bool) (l : Series K) :
  (forall x, In x l -> p x = false) -> filter p l = [].
Proof.
  induction l as [|h t IH]; simpl; intros Hp; [reflexivity|].
  rewrite (Hp h) by (left; reflexivity).
  apply IH. intros x Hx. apply Hp. right. exact Hx.
Qed.

Lemma insert_by_value_ties (e : K * Z) (l : Series K) (v : Z) :
  ascending l ->
  ties v (insert_by_value e l)
  = if Z.eqb (snd e) v then ties v l ++ [e] else ties v l.
Proof.
  unfold ties.
  induction 1 as [|h t Ht IH Hh]; simpl.
  - destruct (Z.eqb (snd e) v); reflexivity.
  - destruct (Z.ltb_spec (snd e) (snd h)) as [Hlt|Hge]; simpl.
    + destruct (Z.eqb_spec (snd e) v) as [He|He]; [|reflexivity].
      assert (Hnone : filter (fun x => Z.eqb (snd x) v) (h :: t) = []).
      { apply filter_none. intros x Hx. apply Z.eqb_neq.
        rewrite Forall_forall in Hh.
        destruct Hx as [<-|Hx]; [lia|specialize (Hh x Hx); lia]. }
      simpl in Hnone. rewrite Hnone. reflexivity.
    + rewrite IH.
      destruct (Z.eqb (snd h) v), (Z.eqb (snd e) v); reflexivity.
Qed.

Lemma fold_insert_by_value (s acc : Series K) :
  ascending acc ->
  let out := fold_left (fun a e => insert_by_value e a) s acc in
  Permutation out (acc ++ s) /\ ascending out
  /\ forall v, ties v out = ties v acc ++ ties v s.
Proof.
  revert acc. induction s as [|e s IH]; intros acc Hacc; simpl.
  - rewrite app_nil_r. split; [reflexivity|split; [exact Hacc|]].
    intros v. unfold ties. simpl. rewrite app_nil_r. reflexivity.
  - destruct (IH (insert_by_value e acc) (insert_by_value_sorted e acc Hacc))
      as [Hp [Hs Ht]].
    split; [|split; [exact Hs|]].
    + rewrite Hp, insert_by_value_Permutation. simpl.
      apply Permutation_middle.
    + intros v. rewrite Ht, (insert_by_value_ties e acc v Hacc).
      unfold ties at 4. simpl.
      destruct (Z.eqb (snd e) v); [|reflexivity].
      rewrite <- app_assoc. reflexivity.
Qed.

Lemma stable_kind_sorts : sorts (@stable_kind K).
Proof.
  intros s. unfold stable_kind.
  destruct (fold_insert_by_value s []) as [Hp [Hs _]];
    [constructor|].
  split; [exact Hp|exact Hs].
Qed.

Lemma stable_kind_stable : stable (@stable_kind K).
Proof.
  intros s v. unfold stable_kind.
  destruct (fold_insert_by_value s []) as [_ [_ Ht]];
    [constructor|].
  apply Ht.
Qed.

End StableKind.

(** The other insertion sort sorts as well, and is not stable. *)

Section UnstableKind.

Context {K : Type}.

Local Abbreviation ascending :=
  (StronglySorted (fun a b : K * Z => (snd a <= snd b)%Z)).

Lemma insert_before_equal_Permutation (e : K * Z) (l : Series K) :
  Permutation (insert_before_equal e l) (e :: l).
Proof.
  induction l as [|h t IH]; simpl; [reflexivity|].
  destruct (snd e <=? snd h)%Z; [reflexivity|].
  rewrite IH. apply perm_swap.
Qed.

Lemma insert_before_equal_sorted (e : K * Z) (l : Series K) :
  ascending l -> ascending (insert_before_equal e l).
Proof.
  induction 1 as [|h t Ht IH Hh]; simpl; [repeat constructor|].
  destruct (Z.leb_spec (snd e) (snd h)) as [Hle|Hgt].
  - constructor; [constructor; assumption|].
    constructor; [exact Hle|].
    rewrite Forall_forall in *. intros x Hx. specialize (Hh x Hx). lia.
  - constructor; [exact IH|].
    rewrite Forall_forall in *. intros x Hx.
    apply (Permutation_in _ (insert_before_equal_Permutation e t)) in Hx.
    destruct Hx as [<-|Hx]; [lia|apply Hh; exact Hx].
Qed.

Lemma fold_insert_before_equal (s acc : Series K) :
  ascending acc ->
  let out := fold_left (fun a e => insert_before_equal e a) s acc in
  Permutation out (acc ++ s) /\ ascending out.
Proof.
  revert acc. induction s as [|e s IH]; intros acc Hacc; simpl.
  - rewrite app_nil_r. split; [reflexivity|exact Hacc].
  - destruct (IH (insert_before_equal e acc)
                 (insert_before_equal_sorted e acc Hacc)) as [Hp Hs].
    split; [|exact Hs].
    rewrite Hp, insert_before_equal_Permutation. simpl.
    apply Permutation_middle.
Qed.

Lemma unstable_kind_sorts : sorts (@unstable_kind K).
Proof.
  intros s. unfold unstable_kind.
  apply (fold_insert_before_equal s []). constructor.
Qed.

End UnstableKind.

Lemma unstable_kind_not_stable : ~ stable (@unstable_kind string).
Proof.
  intros Hst.
  specialize (Hst [("a"%string, 0%Z); ("b"%string, 0%Z)] 0%Z).
  discriminate Hst.
Qed.

(** ** C4: TopNBySum *)

Example top_segments_equal_loads :
  AdvancedStatistics.top_segments stable_kind Samples.equal_loads
  = [("SEG-A"%string, 10%Z); ("SEG-B"%string, 10%Z)].
Proof. reflexivity. Qed.

(** The order of two groups of equal sum is the order the sorting
    algorithm leaves them in: the stable sort keeps the group order, a
    sort that is not stable need not. *)
Example tie_order_depends_on_kind :
  AdvancedStatistics.top_segments unstable_kind Samples.equal_loads
  = [("SEG-B"%string, 10%Z); ("SEG-A"%string, 10%Z)].
Proof. reflexivity. Qed.

(** C4, as stated, fails, on both counts.  Two segments with the same
    total flown load are ranked one after the other, so the ranking is
    not strictly descending.  And the order of groups of equal sum is not
    the group-iteration order for every sorting algorithm that
    [sort_values] may run: it is the reverse order for one that sorts and
    is not stable. *)
Lemma top_n_by_sum_claim_fails :
  ~ strictly_descending
      (AdvancedStatistics.top_segments stable_kind Samples.equal_loads)
  /\ ~ (forall kind : Kind string, sorts kind ->
        forall df v, exists rest,
          ties v (groupby_sum segment flown_load df)
          = ties v (AdvancedStatistics.top_segments kind df) ++ rest).
Proof.
  split.
  - rewrite top_segments_equal_loads. unfold strictly_descending.
    intros Hs. inversion Hs as [|a l _ Hall]; subst.
    inversion Hall as [|b l' Hlt _]; subst. simpl in Hlt. lia.
  - intros Hties.
    destruct (Hties unstable_kind unstable_kind_sorts
                Samples.equal_loads 10%Z) as [rest Hrest].
    rewrite tie_order_depends_on_kind in Hrest.
    vm_compute in Hrest. discriminate Hrest.
Qed.

(** C4, amended.  For every table and every sorting algorithm that pandas
    may run for [sort_values], Top 5 Segments by Flown Load and Top 5 Dates
    by Total Booked are in descending order of the summed metric (no sum
    is smaller than a sum behind it; equal sums follow each other), have
    length min(5, number of distinct groups), and are the first 5 entries
    of a descending rearrangement of the group sums.  The order among
    groups of equal sum is the one the sorting algorithm leaves. *)
Theorem top_n_by_sum (kind_s : Kind string) (kind_d : Kind Z)
    (df : DataFrame) :
  sorts kind_s -> sorts kind_d ->
  let by_segment := groupby_sum segment flown_load df in
  let by_date := groupby_sum departure_date total_booked df in
  let top_segments := AdvancedStatistics.top_segments kind_s df in
  let top_dates := AdvancedStatistics.top_dates kind_d df in
  (descending top_segments
   /\ length top_segments = Nat.min 5 (length (unique (map segment df)))
   /\ (exists ranking, Permutation ranking by_segment /\ descending ranking
                       /\ top_segments = firstn 5 ranking))
  /\
  (descending top_dates
   /\ length top_dates = Nat.min 5 (length (unique (map departure_date df)))
   /\ (exists ranking, Permutation ranking by_date /\ descending ranking
                       /\ top_dates = firstn 5 ranking)).
Proof.
  intros Hs Hd by_segment by_date top_segments top_dates. split.
  - destruct (head_sort_values kind_s Hs 5 by_segment) as [H1 [H2 [H3 _]]].
    unfold by_segment in H2 at 2. rewrite groupby_sum_length in H2.
    repeat split; assumption.
  - destruct (head_sort_values kind_d Hd 5 by_date) as [H1 [H2 [H3 _]]].
    unfold by_date in H2 at 2. rewrite groupby_sum_length in H2.
    repeat split; assumption.
Qed.

Lemma top_n_by_sum_witness :
  sorts (@unstable_kind string) /\ sorts (@unstable_kind Z)
  /\ descending
       (AdvancedStatistics.top_segments unstable_kind Samples.equal_loads)
  /\ length (AdvancedStatistics.top_segments unstable_kind
               Samples.equal_loads)
     = Nat.min 5 (length (unique (map segment Samples.equal_loads)))
  /\ (exists ranking,
        Permutation ranking
          (groupby_sum segment flown_load Samples.equal_loads)
        /\ descending ranking
        /\ AdvancedStatistics.top_segments unstable_kind Samples.equal_loads
           = firstn 5 ranking)
  /\ descending
       (AdvancedStatistics.top_dates unstable_kind Samples.two_segments)
  /\ length (AdvancedStatistics.top_dates unstable_kind Samples.two_segments)
     = Nat.min 5 (length (unique (map departure_date Samples.two_segments))).
Proof.
  split; [apply unstable_kind_sorts|split; [apply unstable_kind_sorts|]].
  destruct (top_n_by_sum unstable_kind unstable_kind Samples.equal_loads
              unstable_kind_sorts unstable_kind_sorts)
    as [[Hseg [Hlen Hrank]] _].
  destruct (top_n_by_sum unstable_kind unstable_kind Samples.two_segments
              unstable_kind_sorts unstable_kind_sorts)
    as [_ [Hdates [Hdlen _]]].
  split; [exact Hseg|split; [exact Hlen|split; [exact Hrank|]]].
  split; [exact Hdates|exact Hdlen].
Defined.

(** ** Mean and standard deviation *)

Section Statistics.

Open Scope R_scope.

Lemma fold_Rplus (l : list R) (a : R) : fold_left Rplus l a = a + Rsum l.
Proof.
  revert a. induction l as [|x l IH]; intros a; simpl; [ring|].
  rewrite IH. ring.
Qed.

Lemma Rsum_cons (x : R) (l : list R) : Rsum (x :: l) = x + Rsum l.
Proof. reflexivity. Qed.

Lemma fsum_Rsum (l : list R) : fsum l = Rsum l.
Proof. unfold fsum. rewrite fold_Rplus. ring. Qed.

Lemma Rsum_squares_nonneg (m : R) (l : list R) :
  0 <= Rsum (map (fun x => (x - m) ^ 2) l).
Proof.
  induction l as [|x l IH]; simpl; [lra|].
  pose proof (pow2_ge_0 (x - m)). simpl in *. lra.
Qed.

Lemma mean_arithmetic (values : list Z) :
  values <> [] -> mean values = Fin (arithmetic_mean (map IZR values)).
Proof.
  intros Hne. destruct values as [|x l]; [contradiction|].
  unfold mean, arithmetic_mean. rewrite fsum_Rsum, length_map. reflexivity.
Qed.

Lemma var_squared_deviations (ddof : nat) (values : list Z) :
  (ddof < length values)%nat ->
  var ddof values
  = Fin (Rsum (map (fun x => (x - arithmetic_mean (map IZR values)) ^ 2)
                   (map IZR values))
         / INR (length values - ddof)).
Proof.
  intros Hn. unfold var.
  destruct (Nat.leb_spec (length values) ddof) as [Hle|_]; [lia|].
  rewrite !fsum_Rsum, map_map. unfold arithmetic_mean. rewrite length_map.
  do 3 f_equal. apply map_ext. intros x. ring.
Qed.

Lemma std_sample (values : list Z) :
  (2 <= length values)%nat ->
  std values = Fin (sample_standard_deviation (map IZR values)).
Proof.
  intros Hn. unfold std, std_ddof.
  rewrite var_squared_deviations by lia. unfold fsqrt.
  set (m := arithmetic_mean (map IZR values)).
  pose proof (Rsum_squares_nonneg m (map IZR values)) as Hsq.
  assert (Hd : 0 < INR (length values - 1)).
  { apply lt_0_INR. lia. }
  destruct (Rlt_dec _ 0) as [Hneg|_].
  - exfalso. apply (Rlt_not_le _ _ Hneg).
    apply Rmult_le_pos; [exact Hsq|].
    left. apply Rinv_0_lt_compat. exact Hd.
  - unfold sample_standard_deviation. fold m.
    rewrite length_map, minus_INR by lia. reflexivity.
Qed.

Lemma std_population (values : list Z) :
  (1 <= length values)%nat ->
  std_ddof 0 values = Fin (population_standard_deviation (map IZR values)).
Proof.
  intros Hn. unfold std_ddof.
  rewrite var_squared_deviations by lia. unfold fsqrt.
  set (m := arithmetic_mean (map IZR values)).
  pose proof (Rsum_squares_nonneg m (map IZR values)) as Hsq.
  assert (Hd : 0 < INR (length values - 0)).
  { apply lt_0_INR. lia. }
  destruct (Rlt_dec _ 0) as [Hneg|_].
  - exfalso. apply (Rlt_not_le _ _ Hneg).
    apply Rmult_le_pos; [exact Hsq|].
    left. apply Rinv_0_lt_compat. exact Hd.
  - unfold population_standard_deviation. fold m.
    rewrite length_map, Nat.sub_0_r. reflexivity.
Qed.

End Statistics.

Lemma threshold_of_two_rows (df : DataFrame) :
  (2 <= length df)%nat ->
  let x := map IZR (map no_shows df) in
  std (map no_shows df) = Fin (sample_standard_deviation x)
  /\ AdvancedStatistics.outlier_threshold df
     = Fin (arithmetic_mean x + 2 * sample_standard_deviation x).
Proof.
  intros Hn x.
  assert (Hs : std (map no_shows df) = Fin (sample_standard_deviation x)).
  { apply std_sample. rewrite length_map. exact Hn. }
  split; [exact Hs|].
  unfold AdvancedStatistics.outlier_threshold.
  rewrite Hs, mean_arithmetic; [reflexivity|].
  destruct df; [simpl in Hn; lia|discriminate].
Qed.

(** ** C8: the standard deviation of the outlier threshold *)

(** C8. For every table with at least two rows, the standard deviation
    that the outlier threshold uses is the sample standard deviation of
    the No Shows column (denominator N - 1), and the threshold is the mean
    plus 2 times the sample standard deviation. *)
Theorem outlier_threshold_sample_std (df : DataFrame) :
  (2 <= length df)%nat ->
  let x := map IZR (map no_shows df) in
  std (map no_shows df) = Fin (sample_standard_deviation x)
  /\ AdvancedStatistics.outlier_threshold df
     = Fin (arithmetic_mean x + 2 * sample_standard_deviation x).
Proof. exact (threshold_of_two_rows df). Qed.

Lemma outlier_threshold_sample_std_witness :
  (2 <= length Samples.two_segments)%nat
  /\ AdvancedStatistics.outlier_threshold Samples.two_segments
     = Fin (arithmetic_mean (map IZR (map no_shows Samples.two_segments))
            + 2 * sample_standard_deviation
                    (map IZR (map no_shows Samples.two_segments))).
Proof.
  assert (Hn : (2 <= length Samples.two_segments)%nat) by (simpl; lia).
  split; [exact Hn|].
  apply (outlier_threshold_sample_std Samples.two_segments Hn).
Defined.

(** The choice matters: on the No Shows values 0 and 2 the sample standard
    deviation is the square root of 2 and the population one is 1. *)
Lemma sample_differs_from_population :
  std [0%Z; 2%Z] = Fin (sqrt 2)
  /\ std_ddof 0 [0%Z; 2%Z] = Fin 1
  /\ std [0%Z; 2%Z] <> std_ddof 0 [0%Z; 2%Z].
Proof.
  assert (Hs : std [0%Z; 2%Z] = Fin (sqrt 2)).
  { rewrite std_sample by (simpl; lia). f_equal.
    unfold sample_standard_deviation, arithmetic_mean. simpl.
    f_equal. field. }
  assert (Hp : std_ddof 0 [0%Z; 2%Z] = Fin 1).
  { rewrite std_population by (simpl; lia). f_equal.
    unfold population_standard_deviation, arithmetic_mean. simpl.
    transitivity (sqrt 1); [f_equal; field|apply sqrt_1]. }
  split; [exact Hs|split; [exact Hp|]].
  rewrite Hs, Hp. intros Heq. inversion Heq as [H2].
  assert (Hsq : (sqrt 2 * sqrt 2 = 2)%R) by (apply sqrt_sqrt; lra).
  rewrite H2 in Hsq. lra.
Qed.

(** ** C10: a table of one row *)

(** C10. For every table of exactly one row, the sample standard
    deviation of No Shows is not a number, so is the outlier threshold,
    and no row is selected: the comparison with a threshold that is not a
    number is false.  Nothing is raised: the query is a total function. *)
Theorem outliers_single_row (df : DataFrame) :
  length df = 1%nat ->
  std (map no_shows df) = NaN
  /\ AdvancedStatistics.outlier_threshold df = NaN
  /\ (forall r, fgt (float_of_int (no_shows r))
                    (AdvancedStatistics.outlier_threshold df) = false)
  /\ AdvancedStatistics.outliers df = [].
Proof.
  intros Hn. destruct df as [|r [|r' df]]; try discriminate.
  repeat split; reflexivity.
Qed.

Lemma outliers_single_row_witness :
  length Samples.single_flight = 1%nat
  /\ AdvancedStatistics.outliers Samples.single_flight = [].
Proof.
  split; [reflexivity|].
  apply (outliers_single_row Samples.single_flight eq_refl).
Defined.

(** ** C5: a No Shows column without variance *)

Section ConstantColumn.

Open Scope R_scope.

Variable c : Z.

Lemma constant_column (df : DataFrame) :
  (forall r, In r df -> no_shows r = c) ->
  map no_shows df = repeat c (length df).
Proof.
  induction df as [|r df IH]; intros Hc; simpl; [reflexivity|].
  rewrite (Hc r) by (left; reflexivity).
  f_equal. apply IH. intros r' Hr'. apply Hc. right. exact Hr'.
Qed.

Lemma Rsum_constant (n : nat) :
  Rsum (map IZR (repeat c n)) = INR n * IZR c.
Proof.
  induction n as [|n IH]; [simpl; ring|].
  rewrite S_INR. cbn [repeat map]. rewrite Rsum_cons, IH. ring.
Qed.

Lemma mean_constant (n : nat) :
  (1 <= n)%nat -> arithmetic_mean (map IZR (repeat c n)) = IZR c.
Proof.
  intros Hn. unfold arithmetic_mean.
  rewrite Rsum_constant, length_map, repeat_length.
  field. apply not_0_INR. lia.
Qed.

Lemma deviations_constant (n : nat) :
  Rsum (map (fun x => (x - IZR c) ^ 2) (map IZR (repeat c n))) = 0.
Proof.
  induction n as [|n IH]; [reflexivity|].
  cbn [repeat map]. rewrite Rsum_cons, IH. ring.
Qed.

Lemma sample_standard_deviation_constant (n : nat) :
  (1 <= n)%nat -> sample_standard_deviation (map IZR (repeat c n)) = 0.
Proof.
  intros Hn. unfold sample_standard_deviation.
  rewrite mean_constant by exact Hn. rewrite deviations_constant.
  unfold Rdiv. rewrite Rmult_0_l. apply sqrt_0.
Qed.

End ConstantColumn.

(** C5, as stated, fails on a table of one row: all No Shows values are
    equal (to 3), and the threshold is not a number, not 3. *)
Lemma single_flight_threshold_not_constant :
  (forall r, In r Samples.single_flight -> no_shows r = 3%Z)
  /\ AdvancedStatistics.outlier_threshold Samples.single_flight
     <> float_of_int 3.
Proof.
  split.
  - intros r [<-|[]]. reflexivity.
  - change (AdvancedStatistics.outlier_threshold Samples.single_flight)
      with NaN.
    discriminate.
Qed.

(** C5, amended.  For every table in which all No Shows values are equal,
    OutlierDetection returns no row; the comparison is the strict [>].
    When the table has at least two rows, the standard deviation is 0 and
    the threshold is the constant value exactly.  (With a single row the
    threshold is not a number, see C10.) *)
Theorem outliers_constant_column (df : DataFrame) (c : Z) :
  (forall r, In r df -> no_shows r = c) ->
  AdvancedStatistics.outliers df = []
  /\ ((2 <= length df)%nat ->
      std (map no_shows df) = Fin 0
      /\ AdvancedStatistics.outlier_threshold df = float_of_int c)
  /\ fgt (float_of_int c) (float_of_int c) = false.
Proof.
  intros Hc.
  assert (Hstrict : fgt (float_of_int c) (float_of_int c) = false).
  { unfold fgt, float_of_int.
    destruct (Rlt_dec (IZR c) (IZR c)) as [Hlt|_]; [lra|reflexivity]. }
  assert (Hthr : (2 <= length df)%nat ->
                 std (map no_shows df) = Fin 0
                 /\ AdvancedStatistics.outlier_threshold df = float_of_int c).
  { intros Hn.
    destruct (threshold_of_two_rows df Hn) as [Hs Ht].
    rewrite (constant_column c df Hc) in Hs, Ht.
    rewrite sample_standard_deviation_constant in Hs, Ht by lia.
    rewrite mean_constant in Ht by lia.
    split; [rewrite <- (constant_column c df Hc) in Hs; exact Hs|].
    rewrite Ht. unfold float_of_int. f_equal. ring. }
  split; [|split; [exact Hthr|exact Hstrict]].
  unfold AdvancedStatistics.outliers. apply boolean_index_all_false.
  apply Forall_forall. intros b Hb. apply in_map_iff in Hb.
  destruct Hb as [r [<- Hr]]. rewrite (Hc r Hr).
  destruct df as [|r1 [|r2 df']]; [destruct Hr|reflexivity|].
  destruct Hthr as [_ ->]; [simpl; lia|exact Hstrict].
Qed.

Lemma outliers_constant_column_witness :
  (forall r, In r Samples.constant_no_shows -> no_shows r = 3%Z)
  /\ AdvancedStatistics.outliers Samples.constant_no_shows = []
  /\ AdvancedStatistics.outlier_threshold Samples.constant_no_shows
     = float_of_int 3.
Proof.
  assert (Hc : forall r, In r Samples.constant_no_shows -> no_shows r = 3%Z).
  { intros r [<-|[<-|[<-|[]]]]; reflexivity. }
  split; [exact Hc|].
  destruct (outliers_constant_column Samples.constant_no_shows 3 Hc)
    as [Hout [Hthr _]].
  split; [exact Hout|].
  apply Hthr. simpl. lia.
Defined.

(** ** The scenarios of the specification, and the properties at sample
    tables *)

(** No Shows by Segment on a day with one flight of SEG-A (1 no show) and
    one of SEG-B (none). *)
Example no_shows_by_segment_one_day :
  ByDate.no_shows_by_segment Samples.one_day 19723
  = [("SEG-A"%string, 1%Z); ("SEG-B"%string, 0%Z)].
Proof. vm_compute. reflexivity. Qed.

(** Daily Totals puts two flights of one segment on the same date into one
    dated entry. *)
Example daily_totals_same_date :
  BySegment.daily_totals
    [Samples.flight (Samples.jan 1) "SEG-A" 2 0 1 2;
     Samples.flight (Samples.jan 1) "SEG-A" 4 1 0 5] "SEG-A"
  = [(Samples.jan 1, [(Adults, 6%Z); (Infants, 1%Z); (Total_Booked, 7%Z)])].
Proof. vm_compute. reflexivity. Qed.

(** SEG-A on 01-01 and 01-02 against SEG-B on 01-02 and 01-03: three
    dates, 0 for SEG-A on 01-03 and for SEG-B on 01-01. *)
Example compare_df_two_segments :
  CompareSegments.compare_df Samples.two_segments "SEG-A" "SEG-B"
  = [(Samples.jan 1, (1%Z, 0%Z)); (Samples.jan 2, (2%Z, 4%Z));
     (Samples.jan 3, (0%Z, 3%Z))].
Proof. vm_compute. reflexivity. Qed.

Lemma compare_aligned_on_union_witness :
  "SEG-A"%string <> "SEG-B"%string
  /\ NoDup (map fst (CompareSegments.compare_df Samples.two_segments
                       "SEG-A" "SEG-B"))
  /\ In (CompareSegments.st_line_chart ("SEG-A"%string, "SEG-B"%string)
           (CompareSegments.compare_df Samples.two_segments "SEG-A" "SEG-B"))
        (CompareSegments.page Samples.two_segments "SEG-A" "SEG-B").
Proof.
  assert (Hne : "SEG-A"%string <> "SEG-B"%string) by discriminate.
  split; [exact Hne|].
  destruct (compare_aligned_on_union Samples.two_segments "SEG-A" "SEG-B" Hne)
    as [Hchart [Hnd _]].
  split; [exact Hnd|exact Hchart].
Defined.

Lemma grouping_empty_subtable_witness :
  ~ In 19730%Z (map (fun r => dt_date (departure_date r)) Samples.one_day)
  /\ ~ In "SEG-Z"%string (map segment Samples.one_day)
  /\ ByDate.no_shows_by_segment Samples.one_day 19730 = []
  /\ BySegment.daily_totals Samples.one_day "SEG-Z" = [].
Proof.
  assert (Hd : ~ In 19730%Z
                 (map (fun r => dt_date (departure_date r)) Samples.one_day)).
  { vm_compute. intros [H|[H|[]]]; discriminate. }
  assert (Hs : ~ In "SEG-Z"%string (map segment Samples.one_day)).
  { simpl. intros [H|[H|[]]]; discriminate. }
  split; [exact Hd|split; [exact Hs|]].
  destruct (grouping_empty_subtable Samples.one_day 19730 "SEG-Z" Hd Hs)
    as [_ [Hn [_ [_ [Ht _]]]]].
  split; [exact Hn|exact Ht].
Defined.

Lemma sum_columns_linear_witness :
  length [true; false; false; false] = length Samples.two_segments
  /\ Forall2 (fun a b => a && b = false)
       [true; false; false; false] [false; true; true; false]
  /\ sum_columns get [Adults; Infants; Total_Booked]
       (boolean_index Samples.two_segments
          (map (fun '(a, b) => a || b)
               (combine [true; false; false; false]
                        [false; true; true; false])))
     = add_values
         (sum_columns get [Adults; Infants; Total_Booked]
            (boolean_index Samples.two_segments [true; false; false; false]))
         (sum_columns get [Adults; Infants; Total_Booked]
            (boolean_index Samples.two_segments [false; true; true; false])).
Proof.
  assert (Hd : Forall2 (fun a b => a && b = false)
                 [true; false; false; false] [false; true; true; false])
    by (repeat constructor).
  split; [reflexivity|split; [exact Hd|]].
  apply (sum_columns_linear Samples.two_segments
           [Adults; Infants; Total_Booked]
           [true; false; false; false] [false; true; true; false]
           eq_refl Hd).
Defined.

(** * Further properties of the pages *)

(** ** Group sums: entries and totals *)

Section GroupSums.

Context {R K : Type} `{Label K}.
Variable key : R -> K.
Variable col : R -> Z.

Lemma groupby_sum_In (df : list R) (k : K) (v : Z) :
  In (k, v) (groupby_sum key col df)
  <-> In k (map key df) /\ v = sum (map col (get_group key df k)).
Proof.
  unfold groupby_sum. rewrite in_map_iff. split.
  - intros [k' [Heq Hk']]. inversion Heq; subst.
    split; [apply group_keys_In; exact Hk'|reflexivity].
  - intros [Hk ->]. exists k. split; [reflexivity|].
    apply group_keys_In. exact Hk.
Qed.

Lemma sum_cons (x : Z) (l : list Z) : sum (x :: l) = int64_add x (sum l).
Proof.
  unfold int64_add. rewrite !sum_wrap, int64_wrap_add_r. reflexivity.
Qed.

Lemma sum_of_group_sums (groups : K -> list Z) (ks : list K) :
  sum (map (fun k => sum (groups k)) ks) = sum (flat_map groups ks).
Proof.
  induction ks as [|k ks IH]; simpl; [reflexivity|].
  rewrite sum_cons, sum_app, IH. reflexivity.
Qed.

(** Grouping loses nothing: the group sums add up to the sum of the
    column. *)
Lemma groupby_sum_total (df : list R) :
  sum (map snd (groupby_sum key col df)) = sum (map col df).
Proof.
  unfold groupby_sum. rewrite map_map. simpl.
  rewrite (sum_of_group_sums (fun k => map col (get_group key df k))).
  apply sum_Permutation.
  rewrite flat_map_concat_map, <- map_map, <- concat_map,
    <- flat_map_concat_map.
  apply Permutation_map, groups_partition; [apply group_keys_NoDup|].
  intros r Hr. apply group_keys_In, in_map, Hr.
Qed.

End GroupSums.

(** ** Sorted labels *)

Section SortedLabels.

Context {K : Type} `{Label K}.
Hypothesis leb_total : forall a b : K, leb a b = true \/ leb b a = true.
Hypothesis leb_trans :
  forall a b c : K, leb a b = true -> leb b c = true -> leb a c = true.

Local Abbreviation in_order := (StronglySorted (fun a b : K => leb a b = true)).

Lemma insert_sorted_in_order (k : K) (l : list K) :
  in_order l -> in_order (insert_sorted k l).
Proof.
  induction 1 as [|h t Ht IH Hh]; simpl; [repeat constructor|].
  destruct (leb k h) eqn:Hkh.
  - constructor; [constructor; assumption|].
    constructor; [exact Hkh|].
    rewrite Forall_forall in *. intros x Hx.
    apply (leb_trans _ _ _ Hkh). apply Hh. exact Hx.
  - constructor; [exact IH|].
    rewrite Forall_forall in *. intros x Hx.
    apply (Permutation_in _ (insert_sorted_Permutation k t)) in Hx.
    destruct Hx as [<-|Hx]; [|apply Hh; exact Hx].
    destruct (leb_total k h) as [Hc|Hc]; [congruence|exact Hc].
Qed.

Lemma sorted_in_order (l : list K) : in_order (sorted l).
Proof.
  induction l as [|a l IH]; simpl; [constructor|].
  apply insert_sorted_in_order. exact IH.
Qed.

End SortedLabels.

Lemma StronglySorted_le_lt (l : list Z) :
  StronglySorted Z.le l -> NoDup l -> StronglySorted Z.lt l.
Proof.
  induction 1 as [|a l Hl IH Ha]; intros Hnd; constructor;
    inversion Hnd as [|? ? Hna Hnd']; subst.
  - apply IH. exact Hnd'.
  - rewrite Forall_forall in *. intros x Hx. specialize (Ha x Hx).
    assert (a <> x) by (intros ->; contradiction). lia.
Qed.

Lemma StronglySorted_weaken {A : Type} (P Q : A -> A -> Prop) (l : list A) :
  (forall a b, P a b -> Q a b) -> StronglySorted P l -> StronglySorted Q l.
Proof.
  intros HPQ. induction 1 as [|a l Hl IH Ha]; constructor; [exact IH|].
  rewrite Forall_forall in *. intros x Hx. apply HPQ, Ha, Hx.
Qed.

(** Dates come out in ascending order, each once. *)
Lemma sorted_dates_ascending (l : list Z) :
  NoDup l -> StronglySorted Z.lt (sorted l).
Proof.
  intros Hnd. apply StronglySorted_le_lt; [|apply sorted_NoDup; exact Hnd].
  apply (StronglySorted_weaken (fun a b : Z => leb a b = true) Z.le).
  - intros a b Hab. apply Z.leb_le. exact Hab.
  - apply sorted_in_order.
    + intros a b. simpl. rewrite !Z.leb_le. lia.
    + intros a b c. simpl. rewrite !Z.leb_le. lia.
Qed.

Lemma group_dates_ascending {R : Type} (key : R -> Z) (df : list R) :
  StronglySorted Z.lt (group_keys key df).
Proof. apply sorted_dates_ascending, unique_NoDup. Qed.

Lemma string_leb_total (a b : string) :
  String.leb a b = true \/ String.leb b a = true.
Proof. apply String.leb_total. Qed.

Lemma string_leb_trans (a b c : string) :
  String.leb a b = true -> String.leb b c = true -> String.leb a c = true.
Proof.
  unfold String.leb. revert b c.
  induction a as [|x a IH]; intros [|y b] [|z c]; simpl; try congruence.
  unfold Ascii.compare.
  destruct (N.compare_spec (N_of_ascii x) (N_of_ascii y)) as [Hxy|Hxy|Hxy];
    destruct (N.compare_spec (N_of_ascii y) (N_of_ascii z)) as [Hyz|Hyz|Hyz];
    destruct (N.compare_spec (N_of_ascii x) (N_of_ascii z)) as [Hxz|Hxz|Hxz];
    try congruence; try lia.
  apply IH.
Qed.

Lemma sorted_segments_in_order (l : list string) :
  StronglySorted (fun a b => String.leb a b = true) (sorted l).
Proof.
  exact (@sorted_in_order string Label_string
           string_leb_total string_leb_trans l).
Qed.

(** ** The select boxes of pages 1 and 2 *)

(** X1. The date select box of the By Date page offers exactly the
    calendar days on which the table has a flight, in ascending order and
    each once; whichever of them is chosen, the filtered table has at
    least one row. *)
Theorem date_options_cover_table (df : DataFrame) :
  StronglySorted Z.lt (ByDate.options df)
  /\ (forall d, In d (ByDate.options df)
                <-> exists r, In r df /\ dt_date (departure_date r) = d)
  /\ (forall d, In d (ByDate.options df) -> ByDate.filtered_df df d <> []).
Proof.
  assert (Hin : forall d, In d (ByDate.options df)
                  <-> exists r, In r df /\ dt_date (departure_date r) = d).
  { intros d. unfold ByDate.options, ByDate.unique_dates.
    rewrite sorted_In, unique_In, in_map_iff. split.
    - intros [r [Hd Hr]]. exists r. tauto.
    - intros [r [Hr Hd]]. exists r. tauto. }
  split; [|split; [exact Hin|]].
  - apply sorted_dates_ascending, unique_NoDup.
  - intros d Hd Hnil. apply Hin in Hd. destruct Hd as [r [Hr Hd]].
    assert (Hrf : In r (ByDate.filtered_df df d)).
    { rewrite filtered_df_by_date. apply (get_group_In date_of). tauto. }
    rewrite Hnil in Hrf. destruct Hrf.
Qed.

(** X2. The segment select box of the By Segment page offers exactly the
    segments of the table, in alphabetical (code point) order and each
    once; the filtered table of a segment is the rows of that segment, in
    table order, and is not empty for an offered segment. *)
Theorem segment_options_cover_table (df : DataFrame) :
  StronglySorted (fun a b => String.leb a b = true) (BySegment.options df)
  /\ NoDup (BySegment.options df)
  /\ (forall s, In s (BySegment.options df)
                <-> exists r, In r df /\ segment r = s)
  /\ (forall s, BySegment.filtered_df df s
                = filter (fun r => String.eqb (segment r) s) df)
  /\ (forall s r, In r (BySegment.filtered_df df s)
                  <-> In r df /\ segment r = s)
  /\ (forall s, In s (BySegment.options df)
                -> BySegment.filtered_df df s <> []).
Proof.
  assert (Hopt : forall s, In s (BySegment.options df)
                   <-> exists r, In r df /\ segment r = s).
  { intros s. unfold BySegment.options, BySegment.segments.
    rewrite sorted_In, unique_In, in_map_iff. split.
    - intros [r [Hs Hr]]. exists r. tauto.
    - intros [r [Hr Hs]]. exists r. tauto. }
  assert (Hin : forall s r, In r (BySegment.filtered_df df s)
                  <-> In r df /\ segment r = s).
  { intros s r. rewrite filtered_df_by_segment. apply get_group_In. }
  split; [apply sorted_segments_in_order|].
  split; [apply sorted_NoDup, unique_NoDup|].
  split; [exact Hopt|]. split; [intros s; apply filtered_df_by_segment|].
  split; [exact Hin|].
  intros s Hs Hnil. apply Hopt in Hs. destruct Hs as [r Hr].
  apply Hin in Hr. rewrite Hnil in Hr. destruct Hr.
Qed.

(** ** Timestamps and calendar days *)

Lemma dt_date_window (t d : Z) :
  dt_date t = d <-> (d * ns_per_day <= t < (d + 1) * ns_per_day)%Z.
Proof.
  unfold dt_date, ns_per_day. split.
  - intros <-.
    pose proof (Z.div_mod t 86400000000000 ltac:(lia)) as Hdm.
    pose proof (Z.mod_pos_bound t 86400000000000 ltac:(lia)) as Hb.
    lia.
  - intros Hw. symmetry. apply (Z.div_unique t _ d (t - d * 86400000000000)); lia.
Qed.

(** X3. Filtering by date goes by the calendar day of the departure
    timestamp: the rows selected for day [d] are the rows that depart from
    midnight of day [d] up to, and not including, midnight of the next
    day, whatever the time of day. *)
Theorem filter_by_date_whole_day (df : DataFrame) (d : Z) (r : FlightRecord) :
  In r (ByDate.filtered_df df d)
  <-> In r df
      /\ (d * ns_per_day <= departure_date r < (d + 1) * ns_per_day)%Z.
Proof.
  rewrite filtered_df_by_date, (get_group_In date_of), dt_date_window.
  reflexivity.
Qed.

(** ** Group sums on the pages *)

(** X4. No Shows by Segment of the By Date page has one entry per segment
    that flies on the selected day, in alphabetical order; the entry is
    the (int64) sum of No Shows over the rows of that day and segment; and
    the entries add up to the No Shows of the day: no row is lost or
    counted twice by the grouping. *)
Theorem no_shows_by_segment_entries (df : DataFrame) (d : Z) :
  let result := ByDate.no_shows_by_segment df d in
  StronglySorted (fun a b => String.leb a b = true) (index result)
  /\ NoDup (index result)
  /\ (forall s, In s (index result)
                <-> exists r, In r df /\ dt_date (departure_date r) = d
                              /\ segment r = s)
  /\ (forall s v, In (s, v) result ->
        v = sum (map no_shows
                   (filter (fun r => String.eqb (segment r) s)
                           (ByDate.filtered_df df d))))
  /\ sum (map snd result) = sum (map no_shows (ByDate.filtered_df df d)).
Proof.
  intros result. unfold result, ByDate.no_shows_by_segment.
  rewrite groupby_sum_index. unfold group_keys at 1 2.
  split; [apply sorted_segments_in_order|].
  split; [apply sorted_NoDup, unique_NoDup|].
  split; [|split].
  - intros s. rewrite group_keys_In, in_map_iff. split.
    + intros [r [Hs Hr]].
      rewrite filtered_df_by_date in Hr. apply (get_group_In date_of) in Hr.
      exists r. tauto.
    + intros [r [Hr [Hd Hs]]]. exists r. split; [exact Hs|].
      rewrite filtered_df_by_date. apply (get_group_In date_of). tauto.
  - intros s v Hv. apply groupby_sum_In in Hv. destruct Hv as [_ ->].
    reflexivity.
  - apply groupby_sum_total.
Qed.

Section DatedSeries.

Context {R : Type}.
Variable col : R -> Z.
Variable date : R -> Z.

Lemma groupby_sum_by_date (df : list R) :
  let series := groupby_sum date col df in
  StronglySorted Z.lt (index series)
  /\ (forall d, In d (index series) <-> exists r, In r df /\ date r = d)
  /\ (forall d v, In (d, v) series ->
        v = sum (map col (filter (fun r => Z.eqb (date r) d) df)))
  /\ sum (map snd series) = sum (map col df).
Proof.
  intros series. unfold series. rewrite groupby_sum_index.
  split; [apply group_dates_ascending|]. split; [|split].
  - intros d. rewrite group_keys_In, in_map_iff. split.
    + intros [r [Hd Hr]]. exists r. tauto.
    + intros [r [Hr Hd]]. exists r. tauto.
  - intros d v Hv. apply groupby_sum_In in Hv. destruct Hv as [_ ->].
    reflexivity.
  - apply groupby_sum_total.
Qed.

End DatedSeries.

(** X5. The No Shows trend of the Advanced Statistics page and the daily
    No Shows of a segment on the By Segment page are time series: the
    departure dates are in strictly ascending order, they are exactly the
    dates of the rows summed, each value is the (int64) sum of No Shows
    of the rows of its date, and the values add up to the No Shows of all
    the rows summed. *)
Theorem no_shows_time_series (df : DataFrame) (s : string) :
  let trend := AdvancedStatistics.no_shows_by_date df in
  let daily := BySegment.no_shows_daily df s in
  (StronglySorted Z.lt (index trend)
   /\ (forall d, In d (index trend)
                 <-> exists r, In r df /\ departure_date r = d)
   /\ (forall d v, In (d, v) trend ->
         v = sum (map no_shows
                    (filter (fun r => Z.eqb (departure_date r) d) df)))
   /\ sum (map snd trend) = sum (map no_shows df))
  /\
  (StronglySorted Z.lt (index daily)
   /\ (forall d, In d (index daily)
                 <-> exists r, In r df /\ segment r = s
                               /\ departure_date r = d)
   /\ (forall d v, In (d, v) daily ->
         v = sum (map no_shows
                    (filter (fun r => Z.eqb (departure_date r) d)
                            (BySegment.filtered_df df s))))
   /\ sum (map snd daily) = sum (map no_shows (BySegment.filtered_df df s))).
Proof.
  intros trend daily. split.
  - apply (groupby_sum_by_date no_shows departure_date df).
  - destruct (groupby_sum_by_date no_shows departure_date
                (BySegment.filtered_df df s)) as [H1 [H2 [H3 H4]]].
    split; [exact H1|split; [|split; [exact H3|exact H4]]].
    intros d. unfold daily, BySegment.no_shows_daily. rewrite H2. split.
    + intros [r [Hr Hd]].
      rewrite filtered_df_by_segment in Hr. apply get_group_In in Hr.
      exists r. tauto.
    + intros [r [Hr [Hs Hd]]]. exists r. split; [|exact Hd].
      rewrite filtered_df_by_segment. apply get_group_In. tauto.
Qed.

(** ** The rankings: the top 5 are the largest *)

Section TopN.

Context {K : Type}.
Variable kind : Kind K.
Hypothesis kind_sorts : sorts kind.

Lemma StronglySorted_app_inv (P : K * Z -> K * Z -> Prop) (l1 l2 : Series K) :
  StronglySorted P (l1 ++ l2) ->
  forall x y, In x l1 -> In y l2 -> P x y.
Proof.
  induction l1 as [|a l1 IH]; simpl; intros Hs x y Hx Hy; [destruct Hx|].
  inversion Hs as [|? ? Hs' Ha]; subst. destruct Hx as [<-|Hx].
  - rewrite Forall_forall in Ha. apply Ha, in_or_app. right. exact Hy.
  - apply IH; assumption.
Qed.

Lemma head_sort_values_largest (n : nat) (s : Series K) :
  let top := head n (sort_values_descending kind s) in
  (forall e, In e top -> In e s)
  /\ (forall e e', In e top -> In e' s -> ~ In e' top ->
                   (snd e' <= snd e)%Z)
  /\ ((length s <= n)%nat -> Permutation top s).
Proof.
  intros top. unfold top, head.
  set (ranking := sort_values_descending kind s).
  assert (Hp : Permutation ranking s)
    by apply (sort_values_descending_Permutation kind kind_sorts).
  assert (Hd : descending ranking)
    by apply (sort_values_descending_sorted kind kind_sorts).
  split; [|split].
  - intros e He. apply (Permutation_in _ Hp). apply (In_firstn n). exact He.
  - intros e e' He He' Hout.
    apply (Permutation_in _ (Permutation_sym Hp)) in He'.
    rewrite <- (firstn_skipn n ranking) in He', Hd.
    apply in_app_or in He'. destruct He' as [He'|He']; [contradiction|].
    apply (StronglySorted_app_inv _ _ _ Hd e e' He He').
  - intros Hn. rewrite firstn_all2; [exact Hp|].
    rewrite (Permutation_length Hp). exact Hn.
Qed.

End TopN.

(** X7. Whatever algorithm sorts, the Top 5 Segments by Flown Load and the
    Top 5 Dates by Total Booked are entries of the group sums (a group
    with its own sum); a group that is left out has a sum no larger than
    any sum that is shown; and with at most 5 groups no group is left
    out. *)
Theorem top_five_are_largest (kind_s : Kind string) (kind_d : Kind Z)
    (df : DataFrame) :
  sorts kind_s -> sorts kind_d ->
  let by_segment := groupby_sum segment flown_load df in
  let by_date := groupby_sum departure_date total_booked df in
  let top_segments := AdvancedStatistics.top_segments kind_s df in
  let top_dates := AdvancedStatistics.top_dates kind_d df in
  ((forall e, In e top_segments -> In e by_segment)
   /\ (forall e e', In e top_segments -> In e' by_segment ->
                    ~ In e' top_segments -> (snd e' <= snd e)%Z)
   /\ ((length (unique (map segment df)) <= 5)%nat ->
       Permutation top_segments by_segment))
  /\
  ((forall e, In e top_dates -> In e by_date)
   /\ (forall e e', In e top_dates -> In e' by_date ->
                    ~ In e' top_dates -> (snd e' <= snd e)%Z)
   /\ ((length (unique (map departure_date df)) <= 5)%nat ->
       Permutation top_dates by_date)).
Proof.
  intros Hs Hd by_segment by_date top_segments top_dates. split.
  - destruct (head_sort_values_largest kind_s Hs 5 by_segment)
      as [H1 [H2 H3]].
    unfold by_segment in H3 at 1. rewrite groupby_sum_length in H3.
    repeat split; assumption.
  - destruct (head_sort_values_largest kind_d Hd 5 by_date) as [H1 [H2 H3]].
    unfold by_date in H3 at 1. rewrite groupby_sum_length in H3.
    repeat split; assumption.
Qed.

Lemma top_five_are_largest_witness :
  sorts (@stable_kind string) /\ sorts (@stable_kind Z)
  /\ Permutation
       (AdvancedStatistics.top_segments stable_kind Samples.two_segments)
       (groupby_sum segment flown_load Samples.two_segments).
Proof.
  split; [apply stable_kind_sorts|split; [apply stable_kind_sorts|]].
  destruct (top_five_are_largest stable_kind stable_kind Samples.two_segments
              stable_kind_sorts stable_kind_sorts) as [[_ [_ Hall]] _].
  apply Hall. vm_compute. lia.
Defined.

(** ** Alignment keeps the totals *)

Section Alignment.

Context {K : Type} `{Label K}.

Local Abbreviation or0 :=
  (fun o : option Z => match o with Some x => x | None => 0%Z end).

Lemma Zsum_point_absent (k0 : K) (v0 : Z) (g : K -> Z) (ks : list K) :
  ~ In k0 ks ->
  Zsum (map (fun k => if eqb k0 k then v0 else g k) ks) = Zsum (map g ks).
Proof.
  induction ks as [|k ks IH]; simpl; intros Hk; [reflexivity|].
  destruct (eqb_spec k0 k) as [Heq|_].
  - exfalso. apply Hk. left. symmetry. exact Heq.
  - rewrite IH; [reflexivity|]. intros Hin. apply Hk. right. exact Hin.
Qed.

Lemma Zsum_point (k0 : K) (v0 : Z) (g : K -> Z) (ks : list K) :
  NoDup ks -> In k0 ks -> g k0 = 0%Z ->
  Zsum (map (fun k => if eqb k0 k then v0 else g k) ks)
  = (v0 + Zsum (map g ks))%Z.
Proof.
  induction 1 as [|k ks Hk Hnd IH]; intros Hin Hg; [destruct Hin|].
  simpl. destruct (eqb_spec k0 k) as [Heq|Hne].
  - subst k. rewrite Zsum_point_absent by exact Hk. lia.
  - destruct Hin as [Heq|Hin]; [congruence|]. rewrite IH by assumption. lia.
Qed.

(** A Series read along an index that has all its labels, with 0 where
    the Series has no value, adds up to the Series. *)
Lemma Zsum_aligned (s : Series K) (ks : list K) :
  NoDup ks -> NoDup (index s) -> (forall k, In k (index s) -> In k ks) ->
  Zsum (map (fun k => or0 (lookup s k)) ks) = Zsum (map snd s).
Proof.
  intros Hks. induction s as [|[k0 v0] s IH]; simpl; intros Hnd Hsub.
  - clear. induction ks as [|k ks IHk]; simpl; [reflexivity|exact IHk].
  - inversion Hnd as [|? ? Hk0 Hnd']; subst.
    rewrite <- IH; [|exact Hnd'|intros k Hk; apply Hsub; right; exact Hk].
    rewrite <- (Zsum_point k0 v0 (fun k => or0 (lookup s k)) ks).
    + f_equal. apply map_ext. intros k. destruct (eqb k0 k); reflexivity.
    + exact Hks.
    + apply Hsub. left. reflexivity.
    + rewrite lookup_absent by exact Hk0. reflexivity.
Qed.

End Alignment.

(** The exact sums of [compare_df]: the dates are in strictly ascending
    order, and each column adds up, in int64, to the int64 total of No
    Shows of the rows of its segment. *)
Lemma compare_df_column_sums (df : DataFrame) (seg1 seg2 : string) :
  let compare_df := CompareSegments.compare_df df seg1 seg2 in
  StronglySorted Z.lt (map fst compare_df)
  /\ sum (map (fun e => fst (snd e)) compare_df)
     = sum (map no_shows (filter (fun r => String.eqb (segment r) seg1) df))
  /\ sum (map (fun e => snd (snd e)) compare_df)
     = sum (map no_shows (filter (fun r => String.eqb (segment r) seg2) df)).
Proof.
  intros compare_df. unfold compare_df. rewrite compare_df_rows.
  set (s1 := CompareSegments.no_shows_of (CompareSegments.select_segment df seg1)).
  set (s2 := CompareSegments.no_shows_of (CompareSegments.select_segment df seg2)).
  assert (Hnd1 : NoDup (index s1)).
  { unfold s1, CompareSegments.no_shows_of.
    rewrite groupby_sum_index. apply group_keys_NoDup. }
  assert (Hnd2 : NoDup (index s2)).
  { unfold s2, CompareSegments.no_shows_of.
    rewrite groupby_sum_index. apply group_keys_NoDup. }
  assert (Hks : NoDup (union_indexes (index s1) (index s2)))
    by apply sorted_NoDup, unique_NoDup.
  assert (Hsub : forall k, In k (index s1) \/ In k (index s2) ->
                           In k (union_indexes (index s1) (index s2))).
  { intros k Hk. unfold union_indexes.
    rewrite sorted_In, unique_In, in_app_iff. exact Hk. }
  rewrite !map_map. simpl. split; [|split].
  - rewrite map_id. apply sorted_dates_ascending, unique_NoDup.
  - rewrite sum_wrap, (Zsum_aligned s1 _ Hks Hnd1) by (intros; apply Hsub; tauto).
    rewrite <- sum_wrap. unfold s1, CompareSegments.no_shows_of.
    rewrite groupby_sum_total, select_segment_rows. reflexivity.
  - rewrite sum_wrap, (Zsum_aligned s2 _ Hks Hnd2) by (intros; apply Hsub; tauto).
    rewrite <- sum_wrap. unfold s2, CompareSegments.no_shows_of.
    rewrite groupby_sum_total, select_segment_rows. reflexivity.
Qed.

(** ** Column sums and 64 bits *)

Lemma int64_wrap_range (z : Z) : (- 2 ^ 63 <= int64_wrap z < 2 ^ 63)%Z.
Proof.
  unfold int64_wrap.
  pose proof (Z.mod_pos_bound (z + 2 ^ 63) (2 ^ 64) ltac:(lia)). lia.
Qed.

Lemma int64_wrap_congruent (z : Z) :
  exists q, int64_wrap z = (z + q * 2 ^ 64)%Z.
Proof.
  unfold int64_wrap. exists (- ((z + 2 ^ 63) / 2 ^ 64))%Z.
  pose proof (Z.div_mod (z + 2 ^ 63) (2 ^ 64) ltac:(lia)). lia.
Qed.

(** X9. Every column sum that the pages show ([df[cols].sum()]) is a signed
    64-bit number that differs from the true total of the column by a
    multiple of 2^64; it is the true total whenever the true total fits
    in 64 bits, whatever the partial sums do on the way. *)
Theorem sum_columns_true_total (df : DataFrame) (cols : list Column) :
  map fst (sum_columns get cols df) = cols
  /\ forall c v, In (c, v) (sum_columns get cols df) ->
       (- 2 ^ 63 <= v < 2 ^ 63)%Z
       /\ (exists q, v = Zsum (map (get c) df) + q * 2 ^ 64)%Z
       /\ ((- 2 ^ 63 <= Zsum (map (get c) df) < 2 ^ 63)%Z ->
           v = Zsum (map (get c) df)).
Proof.
  split.
  - unfold sum_columns. rewrite map_map. simpl. apply map_id.
  - intros c v Hv. unfold sum_columns in Hv. apply in_map_iff in Hv.
    destruct Hv as [c' [Heq _]]. inversion Heq; subst. rewrite sum_wrap.
    split; [apply int64_wrap_range|].
    split; [apply int64_wrap_congruent|apply int64_wrap_small].
Qed.

(** ** Outliers: how far a value can be from the mean *)

Section Deviations.

Open Scope R_scope.

Lemma Rsum_app (l l' : list R) : Rsum (l ++ l') = Rsum l + Rsum l'.
Proof.
  induction l as [|x l IH]; [simpl; ring|].
  cbn [app]. rewrite !Rsum_cons, IH. ring.
Qed.

Lemma Rsum_shift (c : R) (l : list R) :
  Rsum (map (fun x => x - c) l) = Rsum l - INR (length l) * c.
Proof.
  induction l as [|x l IH]; [simpl; ring|].
  cbn [map length]. rewrite !Rsum_cons, IH, S_INR. ring.
Qed.

Lemma Rsum_squares_around (a : R) (l : list R) :
  Rsum (map (fun x => (a - x) ^ 2) l)
  = INR (length l) * a ^ 2 - 2 * a * Rsum l + Rsum (map (fun x => x ^ 2) l).
Proof.
  induction l as [|x l IH]; [simpl; ring|].
  cbn [map length]. rewrite !Rsum_cons, IH, S_INR. ring.
Qed.

(** The square of a sum is at most the count times the sum of the
    squares. *)
Lemma square_of_sum (l : list R) :
  Rsum l ^ 2 <= INR (length l) * Rsum (map (fun x => x ^ 2) l).
Proof.
  induction l as [|a l IH]; [simpl; lra|].
  cbn [map length]. rewrite !Rsum_cons, S_INR.
  assert (Ha : 0 <= Rsum (map (fun x => (a - x) ^ 2) l)).
  { clear. induction l as [|x l IH]; [simpl; lra|].
    cbn [map]. rewrite Rsum_cons. pose proof (pow2_ge_0 (a - x)). lra. }
  rewrite Rsum_squares_around in Ha.
  set (S := Rsum l) in *. set (Q := Rsum (map (fun x => x ^ 2) l)) in *.
  set (n := INR (length l)) in *. nra.
Qed.

(** No value is further from the mean than the spread of the others
    allows: [n (x - m)^2 <= (n - 1) * sum of the squared deviations]. *)
Lemma deviation_bound (l : list R) (x : R) :
  In x l ->
  let m := arithmetic_mean l in
  INR (length l) * (x - m) ^ 2
  <= (INR (length l) - 1) * Rsum (map (fun y => (y - m) ^ 2) l).
Proof.
  intros Hx m.
  assert (Hlen : 0 < INR (length l)).
  { apply lt_0_INR. destruct l; [destruct Hx|simpl; lia]. }
  assert (Hzero : Rsum (map (fun y => y - m) l) = 0).
  { rewrite Rsum_shift. unfold m, arithmetic_mean. field. lra. }
  apply in_split in Hx. destruct Hx as [l1 [l2 ->]].
  rewrite map_app, Rsum_app in Hzero |- *. cbn [map] in Hzero |- *.
  rewrite Rsum_cons in Hzero |- *.
  pose proof (square_of_sum (map (fun y => y - m) (l1 ++ l2))) as Hcs.
  rewrite map_map, length_map in Hcs. cbv beta in Hcs.
  rewrite !map_app, !Rsum_app in Hcs.
  rewrite length_app in *. cbn [length] in *.
  rewrite Nat.add_succ_r, S_INR, <- length_app in *.
  set (n' := INR (length (l1 ++ l2))) in *.
  set (Q1 := Rsum (map (fun y => (y - m) ^ 2) l1)) in *.
  set (Q2 := Rsum (map (fun y => (y - m) ^ 2) l2)) in *.
  set (S1 := Rsum (map (fun y => y - m) l1)) in *.
  set (S2 := Rsum (map (fun y => y - m) l2)) in *.
  assert (Hn' : 0 <= n') by apply pos_INR.
  replace (S1 + S2) with (- (x - m)) in Hcs by lra.
  nra.
Qed.

End Deviations.

Section OutlierBounds.

Open Scope R_scope.

Lemma std_nonneg (values : list Z) (s : R) : std values = Fin s -> 0 <= s.
Proof.
  unfold std, std_ddof, fsqrt. destruct (var 1 values) as [|v]; [discriminate|].
  destruct (Rlt_dec v 0); [discriminate|].
  intros Hs. inversion Hs. apply sqrt_pos.
Qed.

(** Who is an outlier: a row of the table whose No Shows is above the
    threshold, which is then a number. *)
Lemma outliers_In (df : DataFrame) (r : FlightRecord) :
  In r (AdvancedStatistics.outliers df)
  <-> In r df
      /\ exists m s, mean (map no_shows df) = Fin m
                     /\ std (map no_shows df) = Fin s
                     /\ m + 2 * s < IZR (no_shows r).
Proof.
  unfold AdvancedStatistics.outliers, AdvancedStatistics.outlier_threshold.
  rewrite boolean_index_map, filter_In.
  destruct (mean (map no_shows df)) as [|m];
    [|destruct (std (map no_shows df)) as [|s]]; simpl.
  - split; [intros [_ Hf]; discriminate|].
    intros [_ [m [s [Hm _]]]]. discriminate.
  - split; [intros [_ Hf]; discriminate|].
    intros [_ [m' [s [_ [Hs _]]]]]. discriminate.
  - destruct (Rlt_dec (m + 2 * s) (IZR (no_shows r))) as [Hlt|Hge].
    + split; [|tauto]. intros [Hr _]. split; [exact Hr|].
      exists m, s. repeat split; assumption || reflexivity.
    + split; [intros [_ Hf]; discriminate|].
      intros [_ [m' [s' [Hm [Hs Hlt]]]]]. inversion Hm. inversion Hs.
      subst. contradiction.
Qed.

Lemma below_or_all_above (c : R) (l : list R) :
  (exists x, In x l /\ x <= c) \/ (forall x, In x l -> c < x).
Proof.
  induction l as [|a l [[x [Hx Hle]]|Hall]].
  - right. intros x [].
  - left. exists x. split; [right; exact Hx|exact Hle].
  - destruct (Rle_lt_dec a c) as [Hle|Hlt].
    + left. exists a. split; [left; reflexivity|exact Hle].
    + right. intros x [<-|Hx]; [exact Hlt|apply Hall; exact Hx].
Qed.

Lemma Rsum_all_above (c : R) (l : list R) :
  l <> [] -> (forall x, In x l -> c < x) -> INR (length l) * c < Rsum l.
Proof.
  induction l as [|a l IH]; intros Hne Hall; [contradiction|].
  cbn [length]. rewrite Rsum_cons, S_INR.
  assert (Ha : c < a) by (apply Hall; left; reflexivity).
  destruct l as [|b l]; [simpl; lra|].
  assert (Hl : INR (length (b :: l)) * c < Rsum (b :: l)).
  { apply IH; [discriminate|]. intros x Hx. apply Hall. right. exact Hx. }
  lra.
Qed.

(** Some value is not above the mean. *)
Lemma some_value_below_mean (l : list R) :
  l <> [] -> exists x, In x l /\ x <= arithmetic_mean l.
Proof.
  intros Hne.
  destruct (below_or_all_above (arithmetic_mean l) l) as [Hex|Hall];
    [exact Hex|].
  exfalso. apply (Rsum_all_above _ l Hne) in Hall.
  assert (Hlen : 0 < INR (length l)).
  { apply lt_0_INR. destruct l; [contradiction|simpl; lia]. }
  unfold arithmetic_mean in Hall.
  replace (INR (length l) * (Rsum l / INR (length l))) with (Rsum l) in Hall
    by (field; lra).
  lra.
Qed.

(** With 2 to 5 values, none is more than two sample standard deviations
    above the mean. *)
Lemma within_two_deviations (l : list R) (x : R) :
  (2 <= length l <= 5)%nat -> In x l ->
  x <= arithmetic_mean l + 2 * sample_standard_deviation l.
Proof.
  intros Hn Hx. pose proof (deviation_bound l x Hx) as Hb. cbv zeta in Hb.
  set (m := arithmetic_mean l) in *.
  unfold sample_standard_deviation. fold m.
  set (S2 := Rsum (map (fun y => (y - m) ^ 2) l)) in *.
  assert (HS2 : 0 <= S2) by apply Rsum_squares_nonneg.
  set (n := INR (length l)) in *.
  assert (Hn2 : 2 <= n <= 5).
  { unfold n. split.
    - replace 2 with (INR 2) by (simpl; lra). apply le_INR. lia.
    - replace 5 with (INR 5) by (simpl; lra). apply le_INR. lia. }
  assert (Hq : 0 <= S2 / (n - 1)).
  { apply Rmult_le_pos; [exact HS2|]. left. apply Rinv_0_lt_compat. lra. }
  pose proof (sqrt_pos (S2 / (n - 1))) as Hs0.
  pose proof (sqrt_sqrt _ Hq) as Hss.
  set (s := sqrt (S2 / (n - 1))) in *.
  assert (HS : s * s * (n - 1) = S2).
  { rewrite Hss. field. lra. }
  destruct (Rle_lt_dec x (m + 2 * s)) as [Hle|Hgt]; [exact Hle|].
  exfalso.
  assert (Ha : 4 * (s * s) < (x - m) * (x - m)) by nra.
  assert (Hnn : (n - 1) * (n - 1) <= 4 * n) by nra.
  assert (Hsq : 0 <= s * s) by nra.
  assert (H1 : n * (x - m) ^ 2 <= (n - 1) * (n - 1) * (s * s)).
  { rewrite <- HS in Hb. lra. }
  assert (H2 : (n - 1) * (n - 1) * (s * s) <= 4 * n * (s * s)) by nra.
  assert (H3 : 4 * n * (s * s) < n * ((x - m) * (x - m))) by nra.
  simpl in H1. lra.
Qed.

End OutlierBounds.

(** X10. A table of at most 5 rows has no outlier, whatever its No Shows
    values: with so few values none can be more than two sample standard
    deviations above the mean.  (Six rows can have one, see
    [six_rows_can_have_an_outlier].) *)
Theorem outliers_need_six_rows (df : DataFrame) :
  (length df <= 5)%nat -> AdvancedStatistics.outliers df = [].
Proof.
  intros Hn.
  destruct (AdvancedStatistics.outliers df) as [|r rest] eqn:Hout;
    [reflexivity|exfalso].
  assert (Hr : In r (AdvancedStatistics.outliers df))
    by (rewrite Hout; left; reflexivity).
  apply outliers_In in Hr. destruct Hr as [Hr [m [s [Hm [Hs Hlt]]]]].
  assert (Hn2 : (2 <= length df)%nat).
  { destruct df as [|r1 [|r2 df']]; [destruct Hr|discriminate Hs|simpl; lia]. }
  rewrite mean_arithmetic in Hm by (destruct df; [destruct Hr|discriminate]).
  rewrite std_sample in Hs by (rewrite length_map; exact Hn2).
  inversion Hm. inversion Hs. subst m s.
  apply (Rlt_not_le _ _ Hlt). apply within_two_deviations.
  - rewrite !length_map. lia.
  - apply in_map, in_map, Hr.
Qed.

Lemma outliers_need_six_rows_witness :
  (length Samples.two_segments <= 5)%nat
  /\ AdvancedStatistics.outliers Samples.two_segments = [].
Proof.
  assert (Hn : (length Samples.two_segments <= 5)%nat) by (simpl; lia).
  split; [exact Hn|].
  apply (outliers_need_six_rows Samples.two_segments Hn).
Defined.

(** X11. Every flight that Outliers in No Shows lists is a row of the
    table whose No Shows is strictly above the mean plus twice the
    standard deviation, both being numbers and the deviation not negative
    (so it is strictly above the mean); and in a table that has rows, at
    least one row is not listed. *)
Theorem outliers_above_mean (df : DataFrame) :
  (forall r, In r (AdvancedStatistics.outliers df) ->
     In r df
     /\ exists m s, mean (map no_shows df) = Fin m
                    /\ std (map no_shows df) = Fin s
                    /\ (0 <= s)%R
                    /\ (m + 2 * s < IZR (no_shows r))%R
                    /\ (m < IZR (no_shows r))%R)
  /\ (df <> [] ->
      exists r, In r df /\ ~ In r (AdvancedStatistics.outliers df)).
Proof.
  split.
  - intros r Hr. apply outliers_In in Hr.
    destruct Hr as [Hr [m [s [Hm [Hs Hlt]]]]]. split; [exact Hr|].
    exists m, s. pose proof (std_nonneg _ _ Hs) as Hs0.
    split; [exact Hm|split; [exact Hs|split; [exact Hs0|split; [exact Hlt|]]]].
    lra.
  - intros Hne.
    destruct (some_value_below_mean (map IZR (map no_shows df)))
      as [x [Hx Hle]].
    { destruct df; [contradiction|discriminate]. }
    rewrite map_map in Hx. apply in_map_iff in Hx. destruct Hx as [r [<- Hr]].
    exists r. split; [exact Hr|]. intros Hout. apply outliers_In in Hout.
    destruct Hout as [_ [m [s [Hm [Hs Hlt]]]]].
    pose proof (std_nonneg _ _ Hs) as Hs0.
    rewrite mean_arithmetic in Hm by (destruct df; [contradiction|discriminate]).
    inversion Hm. subst m. lra.
Qed.

(** Six rows are enough for an outlier: five flights without no shows and
    one with a single no show. *)
Example six_rows_can_have_an_outlier :
  AdvancedStatistics.outliers Samples.six_flights
  = [Samples.flight (Samples.jan 6) "SEG-A" 2 0 1 2].
Proof.
  assert (Hthr : exists t, AdvancedStatistics.outlier_threshold
                             Samples.six_flights = Fin t
                           /\ (0 < t < 1)%R).
  { destruct (threshold_of_two_rows Samples.six_flights) as [_ Ht];
      [simpl; lia|].
    eexists. split; [exact Ht|].
    assert (Hm : arithmetic_mean
                   (map IZR (map no_shows Samples.six_flights)) = (1 / 6)%R).
    { unfold arithmetic_mean. simpl. field. }
    assert (Hs : sample_standard_deviation
                   (map IZR (map no_shows Samples.six_flights))
                 = sqrt (1 / 6)).
    { unfold sample_standard_deviation. rewrite Hm. simpl. f_equal. field. }
    rewrite Hm, Hs.
    assert (Hlt : (sqrt (1 / 6) < 5 / 12)%R).
    { rewrite <- (sqrt_square (5 / 12)) by lra.
      apply sqrt_lt_1_alt. lra. }
    pose proof (sqrt_pos (1 / 6)). lra. }
  destruct Hthr as [t [Ht Hb]].
  unfold AdvancedStatistics.outliers. rewrite Ht. simpl.
  repeat (destruct (Rlt_dec _ _); try lra). reflexivity.
Qed.

(** ** Average passengers per segment *)

Lemma combine_map_same {A B C : Type} (f : A -> B) (g : A -> C)
    (l : list A) :
  combine (map f l) (map g l) = map (fun x => (f x, g x)) l.
Proof.
  induction l as [|a l IH]; simpl; [reflexivity|].
  rewrite IH. reflexivity.
Qed.

Lemma Rsum_map_plus {A : Type} (f g : A -> R) (l : list A) :
  (Rsum (map (fun x => f x + g x) l) = Rsum (map f l) + Rsum (map g l))%R.
Proof.
  induction l as [|a l IH]; [simpl; ring|].
  cbn [map]. rewrite !Rsum_cons, IH. ring.
Qed.

Lemma avg_passengers_per_key (df : DataFrame) :
  AdvancedStatistics.avg_passengers df
  = map (fun k =>
           (k, (mean (map adults (get_group segment df k)),
                mean (map infants (get_group segment df k)),
                fadd (mean (map adults (get_group segment df k)))
                     (mean (map infants (get_group segment df k))))))
        (group_keys segment df).
Proof.
  unfold AdvancedStatistics.avg_passengers, groupby_mean.
  rewrite combine_map_same, map_map. reflexivity.
Qed.

(** X12. Average Passengers per Segment has one row per segment of the
    table, in alphabetical order; no cell of it is not-a-number, since
    every segment listed has at least one flight; the two averages are
    the arithmetic means of Adults and of Infants over the flights of the
    segment, and [Total] is the mean number of passengers (adults plus
    infants) per flight of the segment. *)
Theorem avg_passengers_rows (df : DataFrame) :
  map fst (AdvancedStatistics.avg_passengers df)
  = sorted (unique (map segment df))
  /\ forall k a i t, In (k, (a, i, t)) (AdvancedStatistics.avg_passengers df) ->
       let flights := filter (fun r => String.eqb (segment r) k) df in
       flights <> []
       /\ a = Fin (arithmetic_mean (map IZR (map adults flights)))
       /\ i = Fin (arithmetic_mean (map IZR (map infants flights)))
       /\ t = Fin (arithmetic_mean
                     (map (fun r => IZR (adults r + infants r)) flights)).
Proof.
  rewrite avg_passengers_per_key. split.
  - rewrite map_map. simpl. apply map_id.
  - intros k a i t Hrow flights. apply in_map_iff in Hrow.
    destruct Hrow as [k' [Heq Hk]]. inversion Heq; subst. clear Heq.
    change (get_group segment df k) with flights.
    apply group_keys_In, in_map_iff in Hk. destruct Hk as [r [Hs Hr]].
    assert (Hin : In r flights).
    { change (In r (get_group segment df k)).
      apply get_group_In. tauto. }
    assert (Hne : flights <> []).
    { intros Hnil. rewrite Hnil in Hin. destruct Hin. }
    split; [exact Hne|].
    rewrite !mean_arithmetic
      by (destruct flights; [contradiction|discriminate]).
    split; [reflexivity|split; [reflexivity|]]. simpl. f_equal.
    unfold arithmetic_mean. rewrite !length_map, !map_map.
    rewrite (map_ext (fun r0 => IZR (adults r0 + infants r0))
                     (fun r0 => (IZR (adults r0) + IZR (infants r0))%R))
      by (intros r0; apply plus_IZR).
    rewrite Rsum_map_plus. field.
    apply not_0_INR. destruct flights; [contradiction|discriminate].
Qed.

(** ** The Compare Segments page *)

Lemma Zsum_map_plus {A : Type} (f g : A -> Z) (l : list A) :
  Zsum (map (fun x => f x + g x)%Z l) = (Zsum (map f l) + Zsum (map g l))%Z.
Proof. induction l as [|a l IH]; simpl; lia. Qed.

(** X13. The passenger trends of the Compare Segments page, for the rows
    of one segment: the dates are the departure dates of the rows, in
    strictly ascending order; Adults and Infants are the (int64) sums over
    the rows of the date, and the column [Total] that the page adds is the
    (int64) sum of adults plus infants over the rows of the date. *)
Theorem compare_daily_totals (dfi : DataFrame) :
  StronglySorted Z.lt (map fst (CompareSegments.daily dfi))
  /\ (forall d, In d (map fst (CompareSegments.daily dfi))
                <-> exists r, In r dfi /\ departure_date r = d)
  /\ forall d a i t, In (d, (a, i, t)) (CompareSegments.daily dfi) ->
       let flights := filter (fun r => Z.eqb (departure_date r) d) dfi in
       a = sum (map adults flights)
       /\ i = sum (map infants flights)
       /\ t = sum (map (fun r => adults r + infants r)%Z flights).
Proof.
  assert (Hidx : map fst (CompareSegments.daily dfi)
                 = group_keys departure_date dfi).
  { unfold CompareSegments.daily. rewrite map_map. simpl. apply map_id. }
  rewrite Hidx. split; [apply group_dates_ascending|split].
  - intros d. rewrite group_keys_In, in_map_iff. split.
    + intros [r [Hd Hr]]. exists r. tauto.
    + intros [r [Hr Hd]]. exists r. tauto.
  - intros d a i t Hrow flights. unfold CompareSegments.daily in Hrow.
    apply in_map_iff in Hrow.
    destruct Hrow as [k [Heq _]]. inversion Heq; subst. clear Heq.
    change (get_group departure_date dfi d) with flights.
    split; [reflexivity|split; [reflexivity|]].
    unfold int64_add. rewrite !sum_wrap, Zsum_map_plus.
    rewrite int64_wrap_add_l, int64_wrap_add_r. reflexivity.
Qed.

Lemma filter_within {A : Type} (p q : A -> bool) (l : list A) :
  (forall x, q x = true -> p x = true) ->
  filter q (filter p l) = filter q l.
Proof.
  intros Hqp. induction l as [|a l IH]; simpl; [reflexivity|].
  destruct (p a) eqn:Hp; simpl.
  - rewrite IH. reflexivity.
  - destruct (q a) eqn:Hq; [|exact IH].
    apply Hqp in Hq. congruence.
Qed.

(** ** Daily totals of a segment *)

(** X6. Daily Total Booked of the By Segment page has one row per
    departure date of the segment, in strictly ascending order; the row of
    a date is the column sums (Adults, Infants, Total Booked) of the
    flights of the segment on that date, so two flights on one date are
    one row; and its dates are the dates of Daily No Shows. *)
Theorem daily_totals_rows (df : DataFrame) (s : string) :
  StronglySorted Z.lt (map fst (BySegment.daily_totals df s))
  /\ (forall d, In d (map fst (BySegment.daily_totals df s))
                <-> exists r, In r df /\ segment r = s
                              /\ departure_date r = d)
  /\ (forall d row, In (d, row) (BySegment.daily_totals df s) ->
        row = sum_columns get [Adults; Infants; Total_Booked]
                (filter (fun r => Z.eqb (departure_date r) d)
                        (BySegment.filtered_df df s)))
  /\ map fst (BySegment.daily_totals df s)
     = index (BySegment.no_shows_daily df s).
Proof.
  assert (Hidx : map fst (BySegment.daily_totals df s)
                 = group_keys departure_date (BySegment.filtered_df df s)).
  { unfold BySegment.daily_totals, groupby_sum_columns.
    rewrite map_map. simpl. apply map_id. }
  rewrite Hidx. split; [apply group_dates_ascending|split; [|split]].
  - intros d. rewrite group_keys_In, in_map_iff. split.
    + intros [r [Hd Hr]].
      rewrite filtered_df_by_segment in Hr. apply get_group_In in Hr.
      exists r. tauto.
    + intros [r [Hr [Hs Hd]]]. exists r. split; [exact Hd|].
      rewrite filtered_df_by_segment. apply get_group_In. tauto.
  - intros d row Hrow.
    unfold BySegment.daily_totals, groupby_sum_columns in Hrow.
    apply in_map_iff in Hrow. destruct Hrow as [k [Heq _]].
    inversion Heq; subst. reflexivity.
  - unfold BySegment.no_shows_daily. rewrite groupby_sum_index. reflexivity.
Qed.

(** ** C6: the correlation matrix *)

Section Correlation.

Open Scope R_scope.

Lemma ssqdm_squares (x : list R) :
  ssqdm x = Rsum (map (fun a => (a - arithmetic_mean x) ^ 2) x).
Proof. unfold ssqdm, arithmetic_mean. rewrite !fsum_Rsum. reflexivity. Qed.

Lemma ssqdm_nonneg (x : list R) : 0 <= ssqdm x.
Proof. rewrite ssqdm_squares. apply Rsum_squares_nonneg. Qed.

Lemma combine_swap {B : Type} (F : R -> R -> B) (x y : list R) :
  map (fun '(a, b) => F a b) (combine x y)
  = map (fun '(b, a) => F a b) (combine y x).
Proof.
  revert y. induction x as [|a x IH]; intros [|b y]; simpl;
    try reflexivity.
  rewrite IH. reflexivity.
Qed.

Lemma covxy_comm (x y : list R) : covxy x y = covxy y x.
Proof.
  unfold covxy.
  rewrite (combine_swap
             (fun a b => (a - fsum x / INR (length x))
                         * (b - fsum y / INR (length y))) x y).
  f_equal. apply map_ext. intros [b a]. ring.
Qed.

Lemma covxy_self (x : list R) : covxy x x = ssqdm x.
Proof.
  unfold covxy, ssqdm. f_equal.
  induction x as [|a x IH]; [reflexivity|].
  cbn [combine map]. f_equal; [ring|].
  set (m := fsum (a :: x) / INR (length (a :: x))) in *.
  clearbody m. clear IH.
  induction x as [|b x IH]; [reflexivity|].
  cbn [combine map]. f_equal; [ring|exact IH].
Qed.

Lemma pearson_comm (x y : list Z) :
  length x = length y -> pearson x y = pearson y x.
Proof.
  intros Hlen. unfold pearson.
  destruct x as [|a x], y as [|b y]; try discriminate Hlen; [reflexivity|].
  rewrite (Rmult_comm (ssqdm (map IZR (a :: x)))),
          (covxy_comm (map IZR (a :: x))).
  reflexivity.
Qed.

(** A column against itself: 1 when the column varies. *)
Lemma pearson_self (x : list Z) :
  ssqdm (map IZR x) <> 0 -> pearson x x = Fin 1.
Proof.
  intros Hs. unfold pearson.
  destruct x as [|a x]; [exfalso; apply Hs; reflexivity|].
  pose proof (ssqdm_nonneg (map IZR (a :: x))) as Hpos.
  rewrite sqrt_square by exact Hpos. rewrite covxy_self.
  destruct (Req_dec_T (ssqdm (map IZR (a :: x))) 0) as [Hz|_];
    [contradiction|].
  f_equal. unfold clip.
  replace (ssqdm (map IZR (a :: x)) / ssqdm (map IZR (a :: x))) with 1
    by (field; exact Hs).
  destruct (Rlt_dec 1 1) as [H1|_]; [lra|].
  destruct (Rlt_dec 1 (-1)) as [H2|_]; [lra|reflexivity].
Qed.

Lemma Rsum_squares_zero (m : R) (l : list R) :
  Rsum (map (fun a => (a - m) ^ 2) l) = 0 -> forall a, In a l -> a = m.
Proof.
  induction l as [|b l IH]; intros Hz a Ha; [destruct Ha|].
  cbn [map] in Hz. rewrite Rsum_cons in Hz.
  pose proof (pow2_ge_0 (b - m)) as Hb.
  pose proof (Rsum_squares_nonneg m l) as Hl.
  destruct Ha as [<-|Ha].
  - assert (Hsq : (b - m) ^ 2 = 0) by lra.
    simpl in Hsq. nra.
  - apply IH; [lra|exact Ha].
Qed.

(** A column with two different values has a sum of squared deviations
    that is not 0. *)
Lemma ssqdm_varies (x : list Z) (a b : Z) :
  In a x -> In b x -> a <> b -> ssqdm (map IZR x) <> 0.
Proof.
  intros Ha Hb Hab Hz. rewrite ssqdm_squares in Hz.
  apply Hab, eq_IZR.
  rewrite (Rsum_squares_zero _ _ Hz (IZR a)) by (apply in_map; exact Ha).
  rewrite (Rsum_squares_zero _ _ Hz (IZR b)) by (apply in_map; exact Hb).
  reflexivity.
Qed.

(** A column without variation has no correlation with itself: the cell
    is not a number. *)
Lemma pearson_self_constant (x : list Z) (c : Z) :
  (forall a, In a x -> a = c) -> pearson x x = NaN.
Proof.
  intros Hc. unfold pearson. destruct x as [|a x]; [reflexivity|].
  assert (Hz : ssqdm (map IZR (a :: x)) = 0).
  { rewrite ssqdm_squares.
    assert (Hrep : a :: x = repeat c (length (a :: x))).
    { clear -Hc. induction (a :: x) as [|b l IH]; [reflexivity|].
      cbn [length repeat]. rewrite (Hc b) by (left; reflexivity).
      f_equal. apply IH. intros d Hd. apply Hc. right. exact Hd. }
    rewrite Hrep, mean_constant by (simpl; lia).
    apply deviations_constant. }
  rewrite Hz, Rmult_0_l, sqrt_0.
  destruct (Req_dec_T 0 0) as [_|Hne]; [reflexivity|contradiction].
Qed.

End Correlation.

(** C6. For every table in which every numeric column has variance (two
    rows differ in it, so the table has at least two rows), the
    correlation matrix has a row and a column per numeric column, is
    symmetric (the cell of columns [ci], [cj] is the cell of [cj], [ci]),
    and every diagonal cell is 1.  Cells are exact reals here, so "within
    floating-point tolerance" is equality. *)
Theorem corr_symmetric_unit_diagonal (df : DataFrame) :
  (forall c, In c AdvancedStatistics.numeric_columns ->
             exists r r', In r df /\ In r' df /\ get c r <> get c r') ->
  map fst (AdvancedStatistics.corr df) = AdvancedStatistics.numeric_columns
  /\ (forall ci row, In (ci, row) (AdvancedStatistics.corr df) ->
        map fst row = AdvancedStatistics.numeric_columns)
  /\ (forall ci cj row v,
        In (ci, row) (AdvancedStatistics.corr df) -> In (cj, v) row ->
        exists row', In (cj, row') (AdvancedStatistics.corr df)
                     /\ In (ci, v) row')
  /\ (forall c row v,
        In (c, row) (AdvancedStatistics.corr df) -> In (c, v) row ->
        v = Fin 1).
Proof.
  intros Hvar.
  assert (Hrow : forall ci row, In (ci, row) (AdvancedStatistics.corr df) ->
            In ci AdvancedStatistics.numeric_columns
            /\ row = map (fun cj => (cj, pearson (map (get ci) df)
                                                   (map (get cj) df)))
                         AdvancedStatistics.numeric_columns).
  { intros ci row Hin. unfold AdvancedStatistics.corr in Hin.
    apply in_map_iff in Hin. destruct Hin as [c [Heq Hc]].
    inversion Heq; subst. split; [exact Hc|reflexivity]. }
  assert (Hcell : forall ci cj v,
            In (cj, v) (map (fun cj => (cj, pearson (map (get ci) df)
                                                      (map (get cj) df)))
                            AdvancedStatistics.numeric_columns) ->
            In cj AdvancedStatistics.numeric_columns
            /\ v = pearson (map (get ci) df) (map (get cj) df)).
  { intros ci cj v Hin. apply in_map_iff in Hin.
    destruct Hin as [c [Heq Hc]]. inversion Heq; subst.
    split; [exact Hc|reflexivity]. }
  split; [|split; [|split]].
  - unfold AdvancedStatistics.corr. rewrite map_map. simpl. reflexivity.
  - intros ci row Hin. destruct (Hrow ci row Hin) as [_ ->].
    rewrite map_map. simpl. reflexivity.
  - intros ci cj row v Hin Hv. destruct (Hrow ci row Hin) as [Hci ->].
    destruct (Hcell ci cj v Hv) as [Hcj ->].
    exists (map (fun c => (c, pearson (map (get cj) df) (map (get c) df)))
                AdvancedStatistics.numeric_columns).
    split.
    + unfold AdvancedStatistics.corr.
      apply (in_map (fun c => (c, map (fun c' => (c', pearson (map (get c) df)
                                                       (map (get c') df)))
                                      AdvancedStatistics.numeric_columns))).
      exact Hcj.
    + rewrite (pearson_comm (map (get ci) df) (map (get cj) df))
        by (rewrite !length_map; reflexivity).
      apply (in_map (fun c => (c, pearson (map (get cj) df)
                                          (map (get c) df)))).
      exact Hci.
  - intros c row v Hin Hv. destruct (Hrow c row Hin) as [Hc ->].
    destruct (Hcell c c v Hv) as [_ ->].
    destruct (Hvar c Hc) as [r [r' [Hr [Hr' Hne]]]].
    apply pearson_self.
    apply (ssqdm_varies _ (get c r) (get c r'));
      [apply in_map; exact Hr|apply in_map; exact Hr'|exact Hne].
Qed.

Lemma corr_symmetric_unit_diagonal_witness :
  (forall c, In c AdvancedStatistics.numeric_columns ->
             exists r r', In r Samples.two_segments
                          /\ In r' Samples.two_segments
                          /\ get c r <> get c r')
  /\ forall c row v,
       In (c, row) (AdvancedStatistics.corr Samples.two_segments) ->
       In (c, v) row -> v = Fin 1.
Proof.
  assert (Hvar : forall c, In c AdvancedStatistics.numeric_columns ->
                   exists r r', In r Samples.two_segments
                                /\ In r' Samples.two_segments
                                /\ get c r <> get c r').
  { intros c _.
    exists (Samples.flight (Samples.jan 1) "SEG-A" 2 0 1 2),
           (Samples.flight (Samples.jan 2) "SEG-A" 4 1 2 5).
    split; [left; reflexivity|split; [right; left; reflexivity|]].
    destruct c; simpl; discriminate. }
  split; [exact Hvar|].
  apply (corr_symmetric_unit_diagonal Samples.two_segments Hvar).
Defined.

(** ** The comparison frame as float64 *)

Lemma float64_of_int64_small (z : Z) :
  (0 <= z < 2 ^ 53)%Z -> float64_of_int64 z = z.
Proof.
  intros Hz. unfold float64_of_int64.
  assert (He : (Z.log2 (Z.abs z) - 52 <= 0)%Z).
  { rewrite Z.abs_eq by lia.
    destruct (Z.eq_dec z 0) as [->|Hnz]; [simpl; lia|].
    assert (Z.log2 z < 53)%Z by (apply Z.log2_lt_pow2; lia). lia. }
  apply Z.leb_le in He. rewrite He. reflexivity.
Qed.

(** Above 2^53 the conversion rounds. *)
Example float64_of_int64_rounds :
  float64_of_int64 (2 ^ 53 + 1) = (2 ^ 53)%Z
  /\ float64_of_int64 (2 ^ 53 + 3) = (2 ^ 53 + 4)%Z
  /\ float64_of_int64 (- (2 ^ 62 + 1)) = (- 2 ^ 62)%Z.
Proof. repeat split; vm_compute; reflexivity. Qed.

Lemma upcast_exact (column : list (option Z)) :
  (forall v, In (Some v) column -> float64_of_int64 v = v) ->
  upcast column = column.
Proof.
  intros Hv. unfold upcast. destruct (existsb is_missing column); [|reflexivity].
  induction column as [|cell column IH]; [reflexivity|].
  cbn [map]. f_equal.
  - destruct cell as [v|]; [|reflexivity]. simpl.
    rewrite Hv by (left; reflexivity). reflexivity.
  - apply IH. intros v Hin. apply Hv. right. exact Hin.
Qed.

Lemma combine_columns {K A B : Type} (f : list (K * (A * B))) :
  combine (map fst f)
          (combine (map (fun row => fst (snd row)) f)
                   (map (fun row => snd (snd row)) f))
  = f.
Proof.
  induction f as [|[k [a b]] f IH]; [reflexivity|].
  cbn [map combine fst snd]. rewrite IH. reflexivity.
Qed.

Lemma Zsum_nonneg (l : list Z) :
  (forall x, In x l -> 0 <= x)%Z -> (0 <= Zsum l)%Z.
Proof.
  induction l as [|a l IH]; intros Hl; simpl; [lia|].
  assert (0 <= a)%Z by (apply Hl; left; reflexivity).
  assert (0 <= Zsum l)%Z by (apply IH; intros x Hx; apply Hl; right; exact Hx).
  lia.
Qed.

Lemma Zsum_filter_le {A : Type} (f : A -> Z) (p : A -> bool) (l : list A) :
  (forall a, In a l -> 0 <= f a)%Z ->
  (0 <= Zsum (map f (filter p l)) <= Zsum (map f l))%Z.
Proof.
  induction l as [|a l IH]; intros Hl; simpl; [lia|].
  assert (0 <= f a)%Z by (apply Hl; left; reflexivity).
  assert (0 <= Zsum (map f (filter p l)) <= Zsum (map f l))%Z
    by (apply IH; intros x Hx; apply Hl; right; exact Hx).
  destruct (p a); simpl; lia.
Qed.

Section ExactGroupSums.

Context {R K : Type} `{Label K}.
Variable key : R -> K.
Variable col : R -> Z.

Lemma lookup_Some_In (s : Series K) (k : K) (v : Z) :
  lookup s k = Some v -> In (k, v) s.
Proof.
  induction s as [|[k' v'] s IH]; simpl; [discriminate|].
  destruct (eqb_spec k' k) as [->|_].
  - intros Heq. inversion Heq. left. reflexivity.
  - intros Hl. right. apply IH. exact Hl.
Qed.

Lemma Zsum_of_group_sums (groups : K -> list Z) (ks : list K) :
  Zsum (map (fun k => Zsum (groups k)) ks) = Zsum (flat_map groups ks).
Proof.
  induction ks as [|k ks IH]; simpl; [reflexivity|].
  rewrite Zsum_app, IH. reflexivity.
Qed.

(** Non-negative values with a total below 2^53: every group sum is the
    true sum, below 2^53, and the group sums add up to the total. *)
Lemma groupby_sum_exact (df : list R) :
  (forall r, In r df -> 0 <= col r)%Z ->
  (Zsum (map col df) < 2 ^ 53)%Z ->
  (forall k v, In (k, v) (groupby_sum key col df) -> (0 <= v < 2 ^ 53)%Z)
  /\ Zsum (map snd (groupby_sum key col df)) = Zsum (map col df).
Proof.
  intros Hpos Hsum.
  assert (Hgroup : forall k,
            sum (map col (get_group key df k))
            = Zsum (map col (get_group key df k))
            /\ (0 <= Zsum (map col (get_group key df k)) < 2 ^ 53)%Z).
  { intros k. pose proof (Zsum_filter_le col (fun r => eqb (key r) k) df Hpos)
      as Hle. fold (get_group key df k) in Hle.
    split; [|lia]. rewrite sum_wrap. apply int64_wrap_small. lia. }
  split.
  - intros k v Hv. apply groupby_sum_In in Hv. destruct Hv as [_ ->].
    destruct (Hgroup k) as [-> Hr]. exact Hr.
  - unfold groupby_sum. rewrite map_map. simpl.
    rewrite (map_ext _ (fun k => Zsum (map col (get_group key df k))))
      by (intros k; apply Hgroup).
    rewrite (Zsum_of_group_sums (fun k => map col (get_group key df k))).
    apply Zsum_Permutation.
    rewrite flat_map_concat_map, <- map_map, <- concat_map,
      <- flat_map_concat_map.
    apply Permutation_map, groups_partition; [apply group_keys_NoDup|].
    intros r Hr. apply group_keys_In, in_map, Hr.
Qed.

Lemma frame_first_column (s1 s2 : Series K) (v : Z) :
  In (Some v) (map (fun row => fst (snd row)) (frame_of_two s1 s2)) ->
  exists k, In (k, v) s1.
Proof.
  unfold frame_of_two. rewrite map_map. simpl. intros Hv.
  apply in_map_iff in Hv. destruct Hv as [k [Hl _]].
  exists k. apply lookup_Some_In. exact Hl.
Qed.

Lemma frame_second_column (s1 s2 : Series K) (v : Z) :
  In (Some v) (map (fun row => snd (snd row)) (frame_of_two s1 s2)) ->
  exists k, In (k, v) s2.
Proof.
  unfold frame_of_two. rewrite map_map. simpl. intros Hv.
  apply in_map_iff in Hv. destruct Hv as [k [Hl _]].
  exists k. apply lookup_Some_In. exact Hl.
Qed.

End ExactGroupSums.

(** X8. When no No Shows value is negative and the No Shows of the whole
    table add up to less than 2^53, the cells of the No Shows comparison,
    as the program holds them (a column with a missing date is float64),
    are the exact daily sums; the dates are in strictly ascending order;
    and filling with 0 adds nothing: each column adds up to the No Shows
    of the rows of its segment. *)
Theorem compare_df_keeps_totals (df : DataFrame) (seg1 seg2 : string) :
  (forall r, In r df -> 0 <= no_shows r)%Z ->
  (Zsum (map no_shows df) < 2 ^ 53)%Z ->
  let cells := CompareSegments.compare_df_cells df seg1 seg2 in
  cells = CompareSegments.compare_df df seg1 seg2
  /\ StronglySorted Z.lt (map fst cells)
  /\ Zsum (map (fun e => fst (snd e)) cells)
     = Zsum (map no_shows (filter (fun r => String.eqb (segment r) seg1) df))
  /\ Zsum (map (fun e => snd (snd e)) cells)
     = Zsum (map no_shows (filter (fun r => String.eqb (segment r) seg2) df)).
Proof.
  intros Hpos Hsum cells.
  set (s1 := CompareSegments.no_shows_of
               (CompareSegments.select_segment df seg1)).
  set (s2 := CompareSegments.no_shows_of
               (CompareSegments.select_segment df seg2)).
  assert (Hseg : forall seg,
            (forall k v, In (k, v) (CompareSegments.no_shows_of
                                     (CompareSegments.select_segment df seg))
                         -> (0 <= v < 2 ^ 53)%Z)
            /\ Zsum (map snd (CompareSegments.no_shows_of
                                (CompareSegments.select_segment df seg)))
               = Zsum (map no_shows
                         (filter (fun r => String.eqb (segment r) seg) df))).
  { intros seg. unfold CompareSegments.no_shows_of.
    rewrite select_segment_rows. unfold get_group. simpl.
    pose proof (Zsum_filter_le no_shows
                  (fun r => String.eqb (segment r) seg) df Hpos) as Hle.
    apply groupby_sum_exact; [|lia].
    intros r Hr. apply Hpos. apply filter_In in Hr. apply Hr. }
  destruct (Hseg seg1) as [Hr1 Ht1]. destruct (Hseg seg2) as [Hr2 Ht2].
  fold s1 in Hr1, Ht1. fold s2 in Hr2, Ht2.
  assert (Hcells : cells = CompareSegments.compare_df df seg1 seg2).
  { unfold cells, CompareSegments.compare_df_cells,
      CompareSegments.compare_df, frame_of_two_cells.
    fold s1 s2. f_equal.
    rewrite !upcast_exact; [apply combine_columns| |].
    - intros v Hv. apply frame_second_column in Hv.
      destruct Hv as [k Hk]. apply float64_of_int64_small, (Hr2 k), Hk.
    - intros v Hv. apply frame_first_column in Hv.
      destruct Hv as [k Hk]. apply float64_of_int64_small, (Hr1 k), Hk. }
  rewrite Hcells. split; [reflexivity|].
  split; [apply (compare_df_column_sums df seg1 seg2)|].
  rewrite compare_df_rows. fold s1 s2. rewrite !map_map. simpl.
  assert (Hnd1 : NoDup (index s1)).
  { unfold s1, CompareSegments.no_shows_of.
    rewrite groupby_sum_index. apply group_keys_NoDup. }
  assert (Hnd2 : NoDup (index s2)).
  { unfold s2, CompareSegments.no_shows_of.
    rewrite groupby_sum_index. apply group_keys_NoDup. }
  assert (Hks : NoDup (union_indexes (index s1) (index s2)))
    by apply sorted_NoDup, unique_NoDup.
  assert (Hsub : forall k, In k (index s1) \/ In k (index s2) ->
                           In k (union_indexes (index s1) (index s2))).
  { intros k Hk. unfold union_indexes.
    rewrite sorted_In, unique_In, in_app_iff. exact Hk. }
  split.
  - rewrite (Zsum_aligned s1 _ Hks Hnd1) by (intros; apply Hsub; tauto).
    exact Ht1.
  - rewrite (Zsum_aligned s2 _ Hks Hnd2) by (intros; apply Hsub; tauto).
    exact Ht2.
Qed.

Lemma compare_df_keeps_totals_witness :
  (forall r, In r Samples.two_segments -> 0 <= no_shows r)%Z
  /\ (Zsum (map no_shows Samples.two_segments) < 2 ^ 53)%Z
  /\ CompareSegments.compare_df_cells Samples.two_segments "SEG-A" "SEG-B"
     = CompareSegments.compare_df Samples.two_segments "SEG-A" "SEG-B"
  /\ Zsum (map (fun e => fst (snd e))
             (CompareSegments.compare_df_cells Samples.two_segments
                "SEG-A" "SEG-B"))
     = Zsum (map no_shows
               (filter (fun r => String.eqb (segment r) "SEG-A")
                       Samples.two_segments)).
Proof.
  assert (Hpos : (forall r, In r Samples.two_segments -> 0 <= no_shows r)%Z).
  { intros r [<-|[<-|[<-|[<-|[]]]]]; simpl; lia. }
  assert (Hsum : (Zsum (map no_shows Samples.two_segments) < 2 ^ 53)%Z)
    by (vm_compute; reflexivity).
  split; [exact Hpos|split; [exact Hsum|]].
  destruct (compare_df_keeps_totals Samples.two_segments "SEG-A" "SEG-B"
              Hpos Hsum) as [Hcells [_ [Htot _]]].
  split; [exact Hcells|exact Htot].
Defined.

(** Without the bound the float64 cells are not the exact sums: a day of
    2^53 + 1 no shows is held as 2^53 once the other segment brings a
    date of its own. *)
Example compare_df_cells_round :
  CompareSegments.compare_df_cells
    [Samples.flight (Samples.jan 1) "SEG-A" 2 0 (2 ^ 53 + 1) 2;
     Samples.flight (Samples.jan 2) "SEG-B" 2 0 1 2] "SEG-A" "SEG-B"
  = [(Samples.jan 1, ((2 ^ 53)%Z, 0%Z)); (Samples.jan 2, (0%Z, 1%Z))].
Proof. vm_compute. reflexivity. Qed.

(** ** The comparison and the other segments *)

Lemma two_distinct_members {A : Type} (l : list A) (a b : A) :
  In a l -> In b l -> a <> b -> exists x y rest, l = x :: y :: rest.
Proof.
  intros Ha Hb Hab. destruct l as [|x [|y rest]].
  - destruct Ha.
  - destruct Ha as [<-|[]]. destruct Hb as [<-|[]]. contradiction.
  - exists x, y, rest. reflexivity.
Qed.

Lemma segments_In (df : DataFrame) (s : string) :
  In s (CompareSegments.segments df) <-> exists r, In r df /\ segment r = s.
Proof.
  unfold CompareSegments.segments. rewrite sorted_In, unique_In, in_map_iff.
  split; intros [r Hr]; exists r; tauto.
Qed.

Lemma run_two_segments (df : DataFrame) (seg1 seg2 : string) :
  seg1 <> seg2 ->
  In seg1 (CompareSegments.segments df) ->
  In seg2 (CompareSegments.segments df) ->
  CompareSegments.run df seg1 seg2
  = CompareSegments.Rendered (CompareSegments.page df seg1 seg2).
Proof.
  intros Hne H1 H2. unfold CompareSegments.run.
  destruct (two_distinct_members _ _ _ H1 H2 Hne) as [x [y [rest ->]]].
  reflexivity.
Qed.

(** X14. For two different segments of the table, the run of the Compare
    Segments page renders, and everything below the two select boxes is
    the same for the table as for the table without the rows of the other
    segments: the comparison looks at the rows of the two chosen segments
    and at nothing else.  The two sub-tables compared have no row in
    common. *)
Theorem compare_ignores_other_segments (df : DataFrame) (seg1 seg2 : string) :
  seg1 <> seg2 ->
  In seg1 (CompareSegments.segments df) ->
  In seg2 (CompareSegments.segments df) ->
  let chosen :=
    filter (fun r => String.eqb (segment r) seg1
                     || String.eqb (segment r) seg2) df in
  (exists elements elements',
     CompareSegments.run df seg1 seg2 = CompareSegments.Rendered elements
     /\ CompareSegments.run chosen seg1 seg2
        = CompareSegments.Rendered elements'
     /\ skipn 3 elements = skipn 3 elements')
  /\ (forall r, ~ (In r (CompareSegments.select_segment df seg1)
                   /\ In r (CompareSegments.select_segment df seg2))).
Proof.
  intros Hne Hs1 Hs2 chosen.
  assert (H1 : CompareSegments.select_segment chosen seg1
               = CompareSegments.select_segment df seg1).
  { rewrite !select_segment_rows. unfold get_group, chosen. simpl.
    apply filter_within. intros r ->. reflexivity. }
  assert (H2 : CompareSegments.select_segment chosen seg2
               = CompareSegments.select_segment df seg2).
  { rewrite !select_segment_rows. unfold get_group, chosen. simpl.
    apply filter_within. intros r ->. apply orb_true_r. }
  assert (Hin : forall s, s = seg1 \/ s = seg2 ->
                  In s (CompareSegments.segments df) ->
                  In s (CompareSegments.segments chosen)).
  { intros s Hs Hdf. apply segments_In in Hdf. destruct Hdf as [r [Hr Hseg]].
    apply segments_In. exists r. split; [|exact Hseg].
    apply filter_In. split; [exact Hr|]. apply orb_true_iff.
    destruct Hs as [->| ->]; [left|right]; apply String.eqb_eq; exact Hseg. }
  split.
  - exists (CompareSegments.page df seg1 seg2),
           (CompareSegments.page chosen seg1 seg2).
    split; [apply run_two_segments; assumption|].
    split; [apply run_two_segments; [exact Hne|apply Hin; tauto|apply Hin; tauto]|].
    unfold CompareSegments.page. cbn [app skipn].
    destruct (String.eqb seg1 seg2); [reflexivity|].
    cbv zeta. unfold CompareSegments.compare_df.
    rewrite H1, H2. reflexivity.
  - intros r [Hr1 Hr2]. rewrite select_segment_rows in Hr1, Hr2.
    apply get_group_In in Hr1, Hr2. destruct Hr1 as [_ E1], Hr2 as [_ E2].
    congruence.
Qed.

Lemma compare_ignores_other_segments_witness :
  "SEG-A"%string <> "SEG-B"%string
  /\ In "SEG-A"%string (CompareSegments.segments Samples.two_segments)
  /\ In "SEG-B"%string (CompareSegments.segments Samples.two_segments)
  /\ exists elements,
       CompareSegments.run Samples.two_segments "SEG-A" "SEG-B"
       = CompareSegments.Rendered elements.
Proof.
  assert (Hne : "SEG-A"%string <> "SEG-B"%string) by discriminate.
  assert (H1 : In "SEG-A"%string
                 (CompareSegments.segments Samples.two_segments))
    by (vm_compute; left; reflexivity).
  assert (H2 : In "SEG-B"%string
                 (CompareSegments.segments Samples.two_segments))
    by (vm_compute; right; left; reflexivity).
  split; [exact Hne|split; [exact H1|split; [exact H2|]]].
  destruct (compare_ignores_other_segments Samples.two_segments
              "SEG-A" "SEG-B" Hne H1 H2) as [[elements [_ [Hrun _]]] _].
  exists elements. exact Hrun.
Defined.
